(** * @tfpkgr/logger: a shallow embedding of [src/index.ts] and [src/values.ts]

    The logger is a class with three static fields (the process-wide
    configuration), four instance fields, and methods that write to the
    console and, for ERROR and FATAL, to a daily log file.  The embedding
    keeps that shape: a [World] holds the static fields, the heap of logger
    instances, the console, the file system and the counters of the host's
    clock and stack captures; every method is a computation in a small
    state-and-exception monad over [World].  What the host decides (the
    clock, the call stack, [path.relative]) is a parameter, [Host]. *)

From Stdlib Require Import ZArith Ascii String List DecimalString Lia.
From Stdlib Require DecimalZ.
From stdpp Require Import base option list gmap strings.

Local Open Scope string_scope.
Local Open Scope Z_scope.

(** ** Exceptions *)

(** What can be thrown: [new Error(message)], as [setLogLevel] does, and
    the [TypeError]s of the language itself. *)
Inductive Exn : Type :=
| JsError (message : string)
| TypeError (message : string).

(** ** JavaScript strings and values *)

Module JS.

(** ["\n"] and ["\x1b"] *)
Definition LF : string := String (ascii_of_nat 10) EmptyString.
Definition ESC : string := String (ascii_of_nat 27) EmptyString.

(** A message fragment has type [unknown].  Strings, [undefined] and
    [null] are told apart because [Array.prototype.join] treats them
    differently.  Of any other value only the conversion to a string
    matters: [Other repr] converts to the text [repr] (a number, a
    boolean, an object whose [toString] returns); a [Symbol] has no
    implicit conversion; [Throwing e] is an object whose conversion throws
    [e] (one without [toString] and [valueOf], like [Object.create(null)],
    or with ones that throw).  A conversion has no other effect. *)
Inductive Value : Type :=
| Undefined
| Null
| Str (s : string)
| Other (repr : string)
| Symbol (description : string)
| Throwing (e : Exn).

(** The result of an operation of the language that may throw. *)
Inductive Completion (A : Type) : Type :=
| Normal (a : A)
| Abrupt (e : Exn).
Arguments Normal {A} a.
Arguments Abrupt {A} e.

Definition ToString (v : Value) : Completion string :=
  match v with
  | Undefined => Normal "undefined"
  | Null => Normal "null"
  | Str s => Normal s
  | Other r => Normal r
  | Symbol _ => Abrupt (TypeError "Cannot convert a Symbol value to a string")
  | Throwing e => Abrupt e
  end.

(** [`${x}`] for [x : string | undefined] *)
Definition template (x : option string) : string :=
  match x with
  | Some s => s
  | None => "undefined"
  end.

(** Truthiness of a [string | undefined]: the empty string is falsy. *)
Definition truthy (x : option string) : bool :=
  match x with
  | Some s => negb (String.eqb s "")
  | None => false
  end.

(** [x || dflt] for [x : string | null | undefined] *)
Definition or_else (x : option string) (dflt : string) : string :=
  if truthy x then template x else dflt.

(** Truthiness of a [number | null | undefined]: zero is falsy. *)
Definition truthy_number (x : option Z) : bool :=
  match x with
  | Some n => negb (n =? 0)
  | None => false
  end.

(** [Number.prototype.toString] on an integer *)
Definition Number_toString (n : Z) : string :=
  NilZero.string_of_int (Z.to_int n).

Fixpoint repeat_char (c : ascii) (n : nat) : string :=
  match n with
  | O => EmptyString
  | S k => String c (repeat_char c k)
  end.

(** [s.padStart(width, fill)] with a one-character [fill]; lengths are
    counted in characters of the string as stored (the level names and
    the printed numbers are ASCII). *)
Definition padStart (width : nat) (fill : ascii) (s : string) : string :=
  repeat_char fill (width - String.length s) ++ s.

(** [haystack.includes(needle)] on strings *)
Definition includes (needle haystack : string) : bool :=
  match String.index 0 needle haystack with
  | Some _ => true
  | None => false
  end.

(** [arr.includes(x)] on an array of strings *)
Definition array_includes (arr : list string) (x : string) : bool :=
  existsb (String.eqb x) arr.

(** [Array.prototype.join]: [undefined] and [null] elements give the
    empty string, every other element its [ToString]; the elements are
    converted from left to right and the first conversion that throws
    ends the call. *)
Definition join_element (v : Value) : Completion string :=
  match v with
  | Undefined | Null => Normal ""
  | _ => ToString v
  end.

Fixpoint join (sep : string) (arr : list Value) : Completion string :=
  match arr with
  | [] => Normal ""
  | [v] => join_element v
  | v :: rest =>
      match join_element v with
      | Normal s =>
          match join sep rest with
          | Normal r => Normal (s ++ sep ++ r)
          | Abrupt e => Abrupt e
          end
      | Abrupt e => Abrupt e
      end
  end.

(** How V8 prints a built-in function. *)
Definition native (name : string) : string :=
  "function " ++ name ++ "() { [native code] }".

(** The properties an object literal inherits from [Object.prototype],
    each with the string its value gives when converted to a primitive:
    eleven are built-in functions, and [__proto__] reads as the prototype
    itself, an object. *)
Definition Object_prototype (k : string) : option string :=
  if existsb (String.eqb k)
       ["__defineGetter__"; "__defineSetter__"; "hasOwnProperty";
        "__lookupGetter__"; "__lookupSetter__"; "isPrototypeOf";
        "propertyIsEnumerable"; "toString"; "valueOf"; "toLocaleString"]
  then Some (native k)
  else if String.eqb k "constructor" then Some (native "Object")
  else if String.eqb k "__proto__" then Some "[object Object]"
  else None.

End JS.

(** ** [node:path], POSIX flavour: [path.join] *)

Module NodePath.

Definition slash : ascii := "/"%char.

(** The pieces of [s] between separators, empty pieces included. *)
Fixpoint split (s : string) : list string :=
  match s with
  | EmptyString => [EmptyString]
  | String c rest =>
      if Ascii.eqb c slash then EmptyString :: split rest
      else match split rest with
           | [] => [String c EmptyString]
           | piece :: pieces => String c piece :: pieces
           end
  end.

Fixpoint concat_with (sep : string) (l : list string) : string :=
  match l with
  | [] => ""
  | [x] => x
  | x :: rest => x ++ sep ++ concat_with sep rest
  end.

(** [normalizeString]: [acc] is the stack of kept segments, last segment
    first.  Empty and ["."] segments are dropped; [".."] removes the last
    kept segment unless there is none or it is [".."] itself, in which
    case [".."] is kept only when [allowAboveRoot]. *)
Fixpoint resolve_segments (allowAboveRoot : bool) (acc : list string)
         (segs : list string) : list string :=
  match segs with
  | [] => rev acc
  | seg :: rest =>
      if String.eqb seg "" || String.eqb seg "." then
        resolve_segments allowAboveRoot acc rest
      else if String.eqb seg ".." then
        match acc with
        | top :: acc' =>
            if String.eqb top ".." then
              resolve_segments allowAboveRoot
                (if allowAboveRoot then ".." :: acc else acc) rest
            else resolve_segments allowAboveRoot acc' rest
        | [] =>
            resolve_segments allowAboveRoot
              (if allowAboveRoot then [".."] else []) rest
        end
      else resolve_segments allowAboveRoot (seg :: acc) rest
  end.

Definition starts_with_slash (p : string) : bool :=
  match p with
  | String c _ => Ascii.eqb c slash
  | EmptyString => false
  end.

Fixpoint ends_with_slash (p : string) : bool :=
  match p with
  | EmptyString => false
  | String c EmptyString => Ascii.eqb c slash
  | String _ rest => ends_with_slash rest
  end.

(** [path.normalize] *)
Definition normalize (p : string) : string :=
  if String.eqb p "" then "."
  else
    let isAbsolute := starts_with_slash p in
    let trailingSeparator := ends_with_slash p in
    let body :=
      concat_with "/" (resolve_segments (negb isAbsolute) [] (split p)) in
    if String.eqb body "" then
      if isAbsolute then "/" else if trailingSeparator then "./" else "."
    else
      let body := if trailingSeparator then body ++ "/" else body in
      if isAbsolute then "/" ++ body else body.

(** [path.join(...args)]: empty arguments are skipped. *)
Definition join (args : list string) : string :=
  match filter (fun a => a ≠ "") args with
  | [] => "."
  | parts => normalize (concat_with "/" parts)
  end.

(** The directories [fs.mkdirSync(p, {recursive: true})] makes sure
    exist: [p] and every directory above it, for a normalized [p]. *)
Definition with_ancestors (p : string) : list string :=
  let isAbsolute := starts_with_slash p in
  let segs := filter (fun a => a ≠ "") (split p) in
  map (fun k =>
         (if isAbsolute then "/" else "") ++ concat_with "/" (take k segs))
      (seq 1 (List.length segs)).

End NodePath.

(** ** [values.ts] *)

Module LoggerColors.
Import JS.
Definition Reset : string := ESC ++ "[0m".
Definition FgRed : string := ESC ++ "[31m".
Definition FgGreen : string := ESC ++ "[32m".
Definition FgYellow : string := ESC ++ "[33m".
Definition FgBlue : string := ESC ++ "[34m".
Definition FgMagenta : string := ESC ++ "[35m".
Definition FgCyan : string := ESC ++ "[36m".
Definition FgWhite : string := ESC ++ "[37m".
Definition FgGray : string := ESC ++ "[90m".
Definition BgBlack : string := ESC ++ "[40m".
Definition BgRed : string := ESC ++ "[41m".
End LoggerColors.

(** The members of [enum LoggerLevels], as the type checker sees them. *)
Inductive Level : Type :=
| SILLY | TRACE | DEBUG | VERBOSE | INFO | TIME | HTTP | SUCCESS | WARN
| ERROR | FATAL.

Definition all_levels : list Level :=
  [SILLY; TRACE; DEBUG; VERBOSE; INFO; TIME; HTTP; SUCCESS; WARN; ERROR; FATAL].

(** [keyof typeof LoggerLevels] *)
Definition key (l : Level) : string :=
  match l with
  | SILLY => "SILLY" | TRACE => "TRACE" | DEBUG => "DEBUG"
  | VERBOSE => "VERBOSE" | INFO => "INFO" | TIME => "TIME" | HTTP => "HTTP"
  | SUCCESS => "SUCCESS" | WARN => "WARN" | ERROR => "ERROR"
  | FATAL => "FATAL"
  end.

Definition rank (l : Level) : Z :=
  match l with
  | SILLY => 0 | TRACE => 1 | DEBUG => 2 | VERBOSE => 3 | INFO => 4
  | TIME => 5 | HTTP => 6 | SUCCESS => 7 | WARN => 8 | ERROR => 9
  | FATAL => 10
  end.

(** What [LoggerLevels[k]] evaluates to at run time: a number, a member
    name, a member of [Object.prototype] (carried with the string it
    converts to), or [undefined]. *)
Inductive Member : Type :=
| Rank (n : Z)
| Name (s : string)
| Inherited (text : string)
| NoMember.

(** [LoggerLevels[k]] for a string [k].  A numeric enum is an object that
    maps every member name to its number and, in reverse, every number
    (as a property key: its decimal text) to the member name.  The enum
    object is an ordinary object: a key it does not have itself is looked
    up in [Object.prototype]. *)
Definition LoggerLevels (k : string) : Member :=
  match List.find (fun l => String.eqb (key l) k) all_levels with
  | Some l => Rank (rank l)
  | None =>
      match List.find (fun l => String.eqb (JS.Number_toString (rank l)) k)
                      all_levels with
      | Some l => Name (key l)
      | None =>
          match JS.Object_prototype k with
          | Some text => Inherited text
          | None => NoMember
          end
      end
  end.

(** The string a [Member] compares as, when it is not a number or
    [undefined]. *)
Definition as_string (a : Member) : option string :=
  match a with
  | Name s => Some s
  | Inherited text => Some text
  | _ => None
  end.

(** [a < b] on two results of a lookup in [LoggerLevels]: two numbers
    compare as numbers; two values that convert to strings (member names,
    inherited functions and objects) compare by code units; in every other
    case one side is NaN as a number ([undefined], or a text that is no
    numeric literal next to a number), and a comparison with NaN is
    false. *)
Definition js_lt (a b : Member) : bool :=
  match a, b with
  | Rank x, Rank y => x <? y
  | _, _ =>
      match as_string a, as_string b with
      | Some s, Some t => String.ltb s t
      | _, _ => false
      end
  end.

(** ** The host: Node's clock, stack captures and [path.relative] *)

(** A V8 [CallSite], through the three getters the logger calls. *)
Record CallSite : Type := {
  getFileName : option string;
  getFunctionName : option string;
  getLineNumber : option Z;
}.

(** A [Date] object, through the getters the logger calls:
    [toISOString] is in UTC, the other three in local time. *)
Record Date : Type := {
  getTime : Z;
  toISOString : string;
  getFullYear : Z;
  getMonth : Z;
  getDate : Z;
}.

Record Host : Type := {
  (** [process.cwd()] *)
  cwd : string;
  (** [__filename] of the compiled [index.ts] *)
  __filename : string;
  (** [path.relative] *)
  relative : string -> string -> string;
  (** what the [k]-th reading of the clock ([new Date()], [Date.now()])
      gives *)
  clock : nat -> Date;
  (** the frames [err.stack] holds at the [k]-th capture, innermost first;
      [None] when inspecting the stack throws *)
  stack : nat -> option (list CallSite);
}.

(** ** Logger instances *)

Record CallerInfo : Type := {
  fileName : string;
  method : string;
}.

#[warnings="-register-all"]
Inductive ParentTrace : Type := Build_ParentTrace {
  parentPrefix : option string;
  parentCreationInfo : CallerInfo;
  childCreationInfo : CallerInfo;
  inheritedTrace : option ParentTrace;
}.

(** The fields of a logger.  [timeMap] is an object literal used as a map
    from labels to start times: the record holds its own properties, and
    [timeMap_get] and [timeMap_set] below read and write it the way
    property access does, through [Object.prototype]. *)
Record Instance : Type := {
  timeMap : gmap string Z;
  prefix : option string;
  creationInfo : CallerInfo;
  parentTrace : option ParentTrace;
}.

(** A reference to a logger: its index in the heap. *)
Definition ref : Type := nat.

(** ** The world *)

Record World : Type := {
  (** [Logger.globalLogLevel], [Logger.logDirectory],
      [Logger.enableFileLogging] *)
  globalLogLevel : string;
  logDirectory : string;
  enableFileLogging : bool;
  (** the logger objects allocated so far *)
  heap : list Instance;
  (** the calls of [console.log] so far, each with its arguments *)
  console : list (list JS.Value);
  (** the file system: directories that exist, and files with their
      contents *)
  dirs : gset string;
  files : gmap string string;
  (** how many times the clock was read and the stack captured *)
  clockReads : nat;
  stackCaptures : nat;
}.

Definition set_globalLogLevel (v : string) (w : World) : World :=
  {| globalLogLevel := v; logDirectory := logDirectory w;
     enableFileLogging := enableFileLogging w; heap := heap w;
     console := console w; dirs := dirs w; files := files w;
     clockReads := clockReads w; stackCaptures := stackCaptures w |}.

Definition set_logDirectory (v : string) (w : World) : World :=
  {| globalLogLevel := globalLogLevel w; logDirectory := v;
     enableFileLogging := enableFileLogging w; heap := heap w;
     console := console w; dirs := dirs w; files := files w;
     clockReads := clockReads w; stackCaptures := stackCaptures w |}.

Definition set_enableFileLogging (v : bool) (w : World) : World :=
  {| globalLogLevel := globalLogLevel w; logDirectory := logDirectory w;
     enableFileLogging := v; heap := heap w;
     console := console w; dirs := dirs w; files := files w;
     clockReads := clockReads w; stackCaptures := stackCaptures w |}.

Definition set_heap (v : list Instance) (w : World) : World :=
  {| globalLogLevel := globalLogLevel w; logDirectory := logDirectory w;
     enableFileLogging := enableFileLogging w; heap := v;
     console := console w; dirs := dirs w; files := files w;
     clockReads := clockReads w; stackCaptures := stackCaptures w |}.

Definition set_console (v : list (list JS.Value)) (w : World) : World :=
  {| globalLogLevel := globalLogLevel w; logDirectory := logDirectory w;
     enableFileLogging := enableFileLogging w; heap := heap w;
     console := v; dirs := dirs w; files := files w;
     clockReads := clockReads w; stackCaptures := stackCaptures w |}.

Definition set_dirs (v : gset string) (w : World) : World :=
  {| globalLogLevel := globalLogLevel w; logDirectory := logDirectory w;
     enableFileLogging := enableFileLogging w; heap := heap w;
     console := console w; dirs := v; files := files w;
     clockReads := clockReads w; stackCaptures := stackCaptures w |}.

Definition set_files (v : gmap string string) (w : World) : World :=
  {| globalLogLevel := globalLogLevel w; logDirectory := logDirectory w;
     enableFileLogging := enableFileLogging w; heap := heap w;
     console := console w; dirs := dirs w; files := v;
     clockReads := clockReads w; stackCaptures := stackCaptures w |}.

Definition set_clockReads (v : nat) (w : World) : World :=
  {| globalLogLevel := globalLogLevel w; logDirectory := logDirectory w;
     enableFileLogging := enableFileLogging w; heap := heap w;
     console := console w; dirs := dirs w; files := files w;
     clockReads := v; stackCaptures := stackCaptures w |}.

Definition set_stackCaptures (v : nat) (w : World) : World :=
  {| globalLogLevel := globalLogLevel w; logDirectory := logDirectory w;
     enableFileLogging := enableFileLogging w; heap := heap w;
     console := console w; dirs := dirs w; files := files w;
     clockReads := clockReads w; stackCaptures := v |}.

(** ** Computations: state over [World], with exceptions *)

Inductive Outcome (A : Type) : Type :=
| Returns (a : A) (w : World)
| Throws (e : Exn) (w : World).
Arguments Returns {A} a w.
Arguments Throws {A} e w.

Definition M (A : Type) : Type := World -> Outcome A.

#[export] Instance M_ret : MRet M := fun A a w => Returns a w.

#[export] Instance M_bind : MBind M := fun A B f m w =>
  match m w with
  | Returns a w' => f a w'
  | Throws e w' => Throws e w'
  end.

Definition throw {A : Type} (e : Exn) : M A := fun w => Throws e w.

Definition gets {A : Type} (f : World -> A) : M A := fun w => Returns (f w) w.

Definition modify (f : World -> World) : M unit := fun w => Returns tt (f w).

(** The world a computation leaves, whether it returned or threw. *)
Definition world_of {A : Type} (o : Outcome A) : World :=
  match o with
  | Returns _ w => w
  | Throws _ w => w
  end.

(** Reading a field of [this]; a [this] that is no logger object makes the
    property access throw. *)
Definition deref (this : ref) : M Instance := fun w =>
  match heap w !! this with
  | Some self => Returns self w
  | None => Throws (TypeError "Cannot read properties of undefined") w
  end.

(** Assigning to fields of [this]. *)
Definition update (this : ref) (f : Instance -> Instance) : M unit := fun w =>
  match heap w !! this with
  | Some self => Returns tt (set_heap (<[this := f self]> (heap w)) w)
  | None => Throws (TypeError "Cannot set properties of undefined") w
  end.

(** Allocating a new object. *)
Definition alloc (obj : Instance) : M ref := fun w =>
  Returns (List.length (heap w)) (set_heap (heap w ++ [obj]) w).

Definition set_timeMap (f : gmap string Z -> gmap string Z) (self : Instance)
  : Instance :=
  {| timeMap := f (timeMap self); prefix := prefix self;
     creationInfo := creationInfo self; parentTrace := parentTrace self |}.

Definition set_parentTrace (t : option ParentTrace) (self : Instance)
  : Instance :=
  {| timeMap := timeMap self; prefix := prefix self;
     creationInfo := creationInfo self; parentTrace := t |}.

(** What [this.timeMap[label]] evaluates to: the number stored under the
    label, a member of [Object.prototype], or [undefined]. *)
Inductive Slot : Type :=
| Start (t : Z)
| Builtin (text : string)
| Missing.

(** [timeMap[label]]: the object's own property, or else the inherited
    one. *)
Definition timeMap_get (m : gmap string Z) (label : string) : Slot :=
  match m !! label with
  | Some t => Start t
  | None =>
      match JS.Object_prototype label with
      | Some text => Builtin text
      | None => Missing
      end
  end.

(** [timeMap[label] = v]: an own property is overwritten; otherwise one is
    created, except under [__proto__], which [Object.prototype] has as an
    accessor whose setter ignores a number. *)
Definition timeMap_set (label : string) (v : Z) (m : gmap string Z)
  : gmap string Z :=
  match m !! label with
  | Some _ => <[label := v]> m
  | None => if String.eqb label "__proto__" then m else <[label := v]> m
  end.

(** Truthiness of a [Slot]: zero and [undefined] are falsy, a function or
    an object is truthy. *)
Definition truthy_slot (s : Slot) : bool :=
  match s with
  | Start t => negb (t =? 0)
  | Builtin _ => true
  | Missing => false
  end.

(** [`${now - startTime}`]: the difference of two numbers, or NaN when
    [startTime] is no number. *)
Definition elapsed_text (now : Z) (startTime : Slot) : string :=
  match startTime with
  | Start t => JS.Number_toString (now - t)
  | _ => "NaN"
  end.

(** ** The class [Logger] *)

Section Logger.

Variable host : Host.

(** [new Date()] *)
Definition new_Date : M Date := fun w =>
  Returns (clock host (clockReads w)) (set_clockReads (S (clockReads w)) w).

(** [Date.now()] *)
Definition Date_now : M Z := d ← new_Date; mret (getTime d).

(** [console.log(...args)] *)
Definition console_log (args : list JS.Value) : M unit :=
  modify (fun w => set_console (console w ++ [args]) w).

(** The three calls into [node:fs].  They are taken to succeed: errors of
    the file system (no permission, a file where a directory is
    expected) are outside the model. *)

(** [fs.existsSync(p)] *)
Definition existsSync (p : string) : M bool :=
  gets (fun w => bool_decide (p ∈ dirs w) || bool_decide (is_Some (files w !! p))).

(** [fs.mkdirSync(p, {recursive: true})] *)
Definition mkdirSync_recursive (p : string) : M unit :=
  modify (fun w => set_dirs (dirs w ∪ list_to_set (NodePath.with_ancestors p)) w).

(** [fs.appendFileSync(p, data)] *)
Definition appendFileSync (p data : string) : M unit :=
  modify (fun w => set_files (<[p := default "" (files w !! p) ++ data]> (files w)) w).

(** The loop of [__getCallerInfo] over the frames from index 2 on: the
    first frame with a file name other than [__filename] decides. *)
Fixpoint scan_frames (frames : list CallSite)
  : option string * option string * option Z :=
  match frames with
  | [] => (None, None, None)
  | callSite :: rest =>
      let fileName := getFileName callSite in
      if JS.truthy fileName
         && negb (String.eqb (JS.template fileName) (__filename host))
      then
        (Some (relative host (cwd host) (JS.template fileName)),
         Some (JS.or_else (getFunctionName callSite) "anonymous"),
         if negb (JS.includes "logger.ts" (JS.template fileName))
         then getLineNumber callSite else None)
      else scan_frames rest
  end.

(** What [__getCallerInfo] returns for the captured frames.  A capture
    that throws is caught and leaves the three variables undefined. *)
Definition resolve_caller (captured : option (list CallSite)) : CallerInfo :=
  let '(callerFile, callerMethod, lineNumber) :=
    match captured with
    | Some frames => scan_frames (drop 2 frames)
    | None => (None, None, None)
    end in
  {| fileName :=
       JS.or_else callerFile "unknown" ++ ":" ++
       (if JS.truthy_number lineNumber
        then JS.Number_toString (default 0 lineNumber) else "-1");
     method := JS.or_else callerMethod "unknown" |}.

(** [__getCallerInfo()]: one capture of the stack. *)
Definition __getCallerInfo : M CallerInfo := fun w =>
  Returns (resolve_caller (stack host (stackCaptures w)))
          (set_stackCaptures (S (stackCaptures w)) w).

(** [static setLogLevel(level)] *)
Definition setLogLevel (level : string) : M unit :=
  match LoggerLevels level with
  | NoMember => throw (JsError ("Invalid log level: " ++ level))
  | _ => modify (set_globalLogLevel level)
  end.

(** [static setLogDirectory(directory)] *)
Definition setLogDirectory (directory : string) : M unit :=
  modify (set_logDirectory directory).

(** [static setFileLogging(enable)] *)
Definition setFileLogging (enable : bool) : M unit :=
  modify (set_enableFileLogging enable).

(** [new Logger(prefix)]: the field initialisers, then the constructor's
    body. *)
Definition new_Logger (prefix : option string) : M ref :=
  info ← __getCallerInfo;
  alloc {| timeMap := ∅; prefix := prefix; creationInfo := info;
           parentTrace := None |}.

(** [child(prefix?, trace = false)] *)
Definition child (this : ref) (prefix' : option string) (trace : bool)
  : M ref :=
  childCreationInfo ← __getCallerInfo;
  self ← deref this;
  newLogger ← new_Logger
    (if JS.truthy (prefix self)
     then Some (JS.template (prefix self) ++ " -> " ++ JS.template prefix')
     else prefix');
  (if trace then
     update newLogger
       (set_parentTrace
          (Some {| parentPrefix := prefix self;
                   parentCreationInfo := creationInfo self;
                   childCreationInfo := childCreationInfo;
                   inheritedTrace := parentTrace self |}))
   else mret tt);;
  mret newLogger.

(** [__logToFile(message)] *)
Definition __logToFile (message : string) : M unit :=
  enabled ← gets enableFileLogging;
  if negb enabled then mret tt
  else
    now ← new_Date;
    let year := JS.Number_toString (getFullYear now) in
    let month :=
      JS.padStart 2 "0"%char (JS.Number_toString (getMonth now + 1)) in
    let date := JS.padStart 2 "0"%char (JS.Number_toString (getDate now)) in
    directory ← gets logDirectory;
    let logDir := NodePath.join [directory; year ++ "/" ++ year ++ "-" ++ month] in
    let logFile :=
      NodePath.join [logDir; year ++ "-" ++ month ++ "-" ++ date ++ ".log"] in
    present ← existsSync logDir;
    (if negb present then mkdirSync_recursive logDir else mret tt);;
    appendFileSync logFile (message ++ JS.LF).

(** The arguments [__log] passes to [console.log]. *)
Definition console_block (level : string) (messages : list JS.Value)
           (color bgColor timestamp : string) (caller : CallerInfo)
           (prefix : option string) : list JS.Value :=
  [ JS.Str (bgColor ++ color ++ JS.LF ++ timestamp ++ " |");
    JS.Str (JS.padStart 10 " "%char level);
    JS.Str (JS.LF ++ "|---");
    JS.Str (fileName caller);
    JS.Str (JS.LF ++ "|---");
    JS.Str (method caller);
    JS.Str (if JS.truthy prefix
            then JS.LF ++ "|--- " ++ JS.template prefix else "");
    JS.Str (JS.LF ++ LoggerColors.Reset ++ LoggerColors.Reset) ]
  ++ messages ++ [ JS.Str JS.LF ].

(** The line [__log] hands to [__logToFile], given what
    [messages.join(' ')] returned. *)
Definition file_line (level : string) (joined : string)
           (timestamp : string) (caller : CallerInfo)
           (prefix : option string) : string :=
  timestamp ++ " | " ++ level ++ " | " ++ fileName caller ++ " | "
  ++ method caller
  ++ (if JS.truthy prefix then " | " ++ JS.template prefix else "")
  ++ " | " ++ joined.

(** [__log(level, messages, color, bgColor)] *)
Definition __log (this : ref) (level : string) (messages : list JS.Value)
           (color bgColor : string) : M ref :=
  globalLogLevel ← gets globalLogLevel;
  if js_lt (LoggerLevels level) (LoggerLevels globalLogLevel) then mret this
  else
    now ← new_Date;
    let timestamp := toISOString now in
    caller ← __getCallerInfo;
    self ← deref this;
    console_log
      (console_block level messages color bgColor timestamp caller
         (prefix self));;
    (if JS.array_includes ["ERROR"; "FATAL"] level
     then
       match JS.join " " messages with
       | JS.Normal joined =>
           __logToFile (file_line level joined timestamp caller (prefix self))
       | JS.Abrupt e => throw e
       end
     else mret tt);;
    mret this.

(** The line [log] renders for one link of the trace chain. *)
Definition trace_line (t : ParentTrace) : string :=
  "Trace: Parent created at " ++ fileName (parentCreationInfo t) ++ ", "
  ++ "Child created at " ++ fileName (childCreationInfo t).

(** The [while (currentTrace)] loop of [log]: one line per link, from
    this logger's link towards its ancestors'. *)
Fixpoint traceMessages (currentTrace : ParentTrace) : list string :=
  trace_line currentTrace ::
  match inheritedTrace currentTrace with
  | Some t => traceMessages t
  | None => []
  end.

(** [log(level, ...messages)] *)
Definition log (this : ref) (level : string) (messages : list JS.Value)
  : M ref :=
  self ← deref this;
  let messages :=
    match parentTrace self with
    | Some t => (messages ++ map JS.Str (rev (traceMessages t)))%list
    | None => messages
    end in
  __log this level messages LoggerColors.Reset LoggerColors.Reset.

Definition info (this : ref) (messages : list JS.Value) : M ref :=
  __log this "INFO" messages LoggerColors.FgCyan LoggerColors.BgBlack.

Definition warn (this : ref) (messages : list JS.Value) : M ref :=
  __log this "WARN" messages LoggerColors.FgYellow LoggerColors.BgBlack.

Definition error (this : ref) (messages : list JS.Value) : M ref :=
  __log this "ERROR" messages LoggerColors.FgRed LoggerColors.BgBlack.

Definition success (this : ref) (messages : list JS.Value) : M ref :=
  __log this "SUCCESS" messages LoggerColors.FgGreen LoggerColors.BgBlack.

Definition debug (this : ref) (messages : list JS.Value) : M ref :=
  __log this "DEBUG" messages LoggerColors.FgBlue LoggerColors.BgBlack.

Definition verbose (this : ref) (messages : list JS.Value) : M ref :=
  __log this "VERBOSE" messages LoggerColors.FgMagenta LoggerColors.BgBlack.

Definition fatal (this : ref) (messages : list JS.Value) : M ref :=
  __log this "FATAL" messages LoggerColors.FgWhite LoggerColors.BgRed.

Definition silly (this : ref) (messages : list JS.Value) : M ref :=
  __log this "SILLY" messages LoggerColors.FgGray LoggerColors.BgBlack.

Definition http (this : ref) (messages : list JS.Value) : M ref :=
  __log this "HTTP" messages LoggerColors.FgMagenta LoggerColors.BgBlack.

Definition trace (this : ref) (messages : list JS.Value) : M ref :=
  __log this "TRACE" messages LoggerColors.FgWhite LoggerColors.BgBlack.

(** [timeStart(label)] *)
Definition timeStart (this : ref) (label : string) : M ref :=
  now ← Date_now;
  update this (set_timeMap (timeMap_set label now));;
  mret this.

(** [timeEnd(label)].  [delete] removes an own property and does nothing
    when there is none. *)
Definition timeEnd (this : ref) (label : string) : M ref :=
  self ← deref this;
  let startTime := timeMap_get (timeMap self) label in
  (if truthy_slot startTime then
     now ← Date_now;
     let duration := elapsed_text now startTime in
     __log this "TIME"
       [JS.Str (label ++ ": " ++ duration ++ "ms")]
       LoggerColors.FgGreen LoggerColors.BgBlack;;
     update this (set_timeMap (delete label))
   else
     __log this "TIME" [JS.Str (label ++ ": -1ms")]
       LoggerColors.FgRed LoggerColors.BgBlack;;
     mret tt);;
  mret this.

End Logger.

(** ** The state a program starts in *)

(** The static fields' initialisers; nothing allocated, nothing written. *)
Definition initial (host : Host) : World :=
  {| globalLogLevel := "INFO";
     logDirectory := NodePath.join [cwd host; ".logs"];
     enableFileLogging := true;
     heap := [];
     console := [];
     dirs := ∅;
     files := ∅;
     clockReads := 0;
     stackCaptures := 0 |}.


(** ** Vocabulary of the statements *)

(** The two ways to log at a level: the generic [log], or the method named
    after the level. *)
Inductive Entry : Type := Generic | Shortcut.

(** The method named after a level; TIME has none. *)
Definition shortcut (host : Host) (l : Level)
  : option (ref -> list JS.Value -> M ref) :=
  match l with
  | SILLY => Some (silly host)
  | TRACE => Some (trace host)
  | DEBUG => Some (debug host)
  | VERBOSE => Some (verbose host)
  | INFO => Some (info host)
  | TIME => None
  | HTTP => Some (http host)
  | SUCCESS => Some (success host)
  | WARN => Some (warn host)
  | ERROR => Some (error host)
  | FATAL => Some (fatal host)
  end.

Definition invoke (host : Host) (e : Entry) (l : Level)
  : option (ref -> list JS.Value -> M ref) :=
  match e with
  | Generic => Some (fun this => log host this (key l))
  | Shortcut => shortcut host l
  end.

(** The links of a trace chain, the logger's own link first, the oldest
    ancestor's last. *)
Fixpoint links (t : ParentTrace) : list ParentTrace :=
  t :: match inheritedTrace t with
       | Some t' => links t'
       | None => []
       end.

Definition chain (o : option ParentTrace) : list ParentTrace :=
  match o with
  | Some t => links t
  | None => []
  end.

(** The message list an entry point hands to the formatting layer: the
    generic [log] adds the trace lines, oldest first. *)
Definition fragments (e : Entry) (self : Instance) (messages : list JS.Value)
  : list JS.Value :=
  match e with
  | Generic =>
      messages ++
      map (fun t =>
             JS.Str ("Trace: Parent created at "
                     ++ fileName (parentCreationInfo t)
                     ++ ", Child created at "
                     ++ fileName (childCreationInfo t)))
          (rev (chain (parentTrace self)))
  | Shortcut => messages
  end.

(** The arguments of [console.log] that come before the messages. *)
Definition block_head (level color bgColor timestamp : string)
           (caller : CallerInfo) (prefix : option string) : list JS.Value :=
  [ JS.Str (bgColor ++ color ++ JS.LF ++ timestamp ++ " |");
    JS.Str (JS.padStart 10 " "%char level);
    JS.Str (JS.LF ++ "|---");
    JS.Str (fileName caller);
    JS.Str (JS.LF ++ "|---");
    JS.Str (method caller);
    JS.Str (if JS.truthy prefix
            then JS.LF ++ "|--- " ++ JS.template prefix else "");
    JS.Str (JS.LF ++ LoggerColors.Reset ++ LoggerColors.Reset) ].

(** The name of a severity as [level.padStart(10)] prints it:
    right-aligned in ten columns. *)
Definition padded (l : Level) : string :=
  match l with
  | SILLY => "     SILLY" | TRACE => "     TRACE" | DEBUG => "     DEBUG"
  | VERBOSE => "   VERBOSE" | INFO => "      INFO" | TIME => "      TIME"
  | HTTP => "      HTTP" | SUCCESS => "   SUCCESS" | WARN => "      WARN"
  | ERROR => "     ERROR" | FATAL => "     FATAL"
  end.

(** The prefix argument of the console block: the prefix on a line of its
    own, or the empty string for a logger without a prefix or with the
    empty one. *)
Definition prefix_argument (prefix : option string) : string :=
  match prefix with
  | Some p => if String.eqb p "" then "" else JS.LF ++ "|--- " ++ p
  | None => ""
  end.

(** The prefix field of the file line, under the same rule. *)
Definition prefix_field (prefix : option string) : string :=
  match prefix with
  | Some p => if String.eqb p "" then "" else " | " ++ p
  | None => ""
  end.

(** The eight arguments of [console.log] before the messages, for a call
    at a severity. *)
Definition severity_head (l : Level) (color bgColor timestamp : string)
           (caller : CallerInfo) (prefix : option string) : list JS.Value :=
  [ JS.Str (bgColor ++ color ++ JS.LF ++ timestamp ++ " |");
    JS.Str (padded l);
    JS.Str (JS.LF ++ "|---");
    JS.Str (fileName caller);
    JS.Str (JS.LF ++ "|---");
    JS.Str (method caller);
    JS.Str (prefix_argument prefix);
    JS.Str (JS.LF ++ LoggerColors.Reset ++ LoggerColors.Reset) ].

(** The severities whose admitted calls go on to the file sink. *)
Definition reaches_sink (l : Level) : bool :=
  match l with
  | ERROR | FATAL => true
  | _ => false
  end.

(** [messages.join(' ')] returns: every fragment has a conversion to a
    string. *)
Definition converts (messages : list JS.Value) : Prop :=
  exists joined, JS.join " " messages = JS.Normal joined.

(** A line of descent: [child] called on a logger, then on the child, and
    so on, one call per edge. *)
Fixpoint descend (host : Host) (this : ref)
         (edges : list (option string * bool)) : M ref :=
  match edges with
  | [] => mret this
  | (p, tr) :: rest => c ← child host this p tr; descend host c rest
  end.

(** [root = new Logger(p)], [a = root.child("A", true)],
    [b = a.child("B", true)], in this order. *)
Definition family (host : Host) (p : option string) : M (ref * ref * ref) :=
  root ← new_Logger host p;
  a ← child host root (Some "A") true;
  b ← child host a (Some "B") true;
  mret (root, a, b).

(** How many flags at the head of the list are set. *)
Fixpoint leading (flags : list bool) : nat :=
  match flags with
  | true :: rest => S (leading rest)
  | _ => O
  end.

(** The world after a TIME-level call with the one message [line], from
    [w] to [w'], when the minimum severity is [g]: one console block that
    ends with the line when TIME is admitted, no output otherwise; never a
    file write. *)
Definition TIME_line (g : Level) (w w' : World) (line : string) : Prop :=
  (rank g <= rank TIME ->
   exists head,
     console w' = (console w ++ [head ++ [JS.Str line; JS.Str JS.LF]])%list
     /\ JS.Str "      TIME" ∈ head)
  /\ (rank TIME < rank g -> console w' = console w)
  /\ files w' = files w /\ dirs w' = dirs w.

(** From [w] to [w'] nothing changed in the heap except, in the timer map
    of [this], the entry of [label]. *)
Definition only_label_changed (this : ref) (label : string) (w w' : World)
  : Prop :=
  List.length (heap w') = List.length (heap w)
  /\ (forall r, r <> this -> heap w' !! r = heap w !! r)
  /\ forall self,
       heap w !! this = Some self ->
       exists self',
         heap w' !! this = Some self'
         /\ (forall other, other <> label ->
                           timeMap self' !! other = timeMap self !! other)
         /\ prefix self' = prefix self
         /\ creationInfo self' = creationInfo self
         /\ parentTrace self' = parentTrace self.

(** The prefix built along a line of descent: every segment is joined to
    what came before with [" -> "]. *)
Definition arrow_path (first : string) (names : list string) : string :=
  fold_left (fun acc q => acc ++ " -> " ++ q) names first.

(** Strings whose characters all satisfy a test. *)
Fixpoint all_chars (P : ascii -> bool) (s : string) : bool :=
  match s with
  | EmptyString => true
  | String c rest => P c && all_chars P rest
  end.

Definition not_slash (c : ascii) : bool := negb (Ascii.eqb c NodePath.slash).

(** The characters of a printed integer: digits and the minus sign. *)
Definition decimal_char (c : ascii) : bool :=
  match c with
  | "0" | "1" | "2" | "3" | "4" | "5" | "6" | "7" | "8" | "9" | "-" => true
  | _ => false
  end%char.

(** A non-empty string of such characters. *)
Definition decimal (s : string) : Prop :=
  all_chars decimal_char s = true /\ s <> "".

Definition not_dot (c : ascii) : bool := negb (Ascii.eqb c "."%char).

(** Reading a printed, possibly zero-padded, integer back. *)
Definition unpad (s : string) : Z :=
  match NilZero.int_of_string s with
  | Some d => Z.of_int d
  | None => -1
  end.

(** A path segment that [path.normalize] keeps as it is: not empty, no
    separator in it, and neither ["."] nor [".."]. *)
Definition plain_segment (s : string) : bool :=
  all_chars not_slash s && negb (String.eqb s "") && negb (String.eqb s ".")
  && negb (String.eqb s "..").

(** The path made of the given segments, absolute or relative, without a
    trailing separator. *)
Definition plain_path (absolute : bool) (segs : list string) : string :=
  (if absolute then "/" else "") ++ NodePath.concat_with "/" segs.

(** ** A concrete host and worlds *)

Module Demo.

Definition logger_file : string :=
  "/app/node_modules/@tfpkgr/logger/dist/index.js".

Definition internal (name : string) : CallSite :=
  {| getFileName := Some logger_file; getFunctionName := Some name;
     getLineNumber := Some 1 |}.

(** The stack at the [k]-th capture: three frames of the logger, then
    the application's [run] at line [10 + k] of [/app/src/main.js]. *)
Definition frames (k : nat) : list CallSite :=
  [ internal "__getCallerInfo"; internal "__log"; internal "info";
    {| getFileName := Some "/app/src/main.js";
       getFunctionName := Some "run";
       getLineNumber := Some (10 + Z.of_nat k) |} ].

Fixpoint strip (from to : string) : option string :=
  match from, to with
  | EmptyString, _ => Some to
  | String a from', String b to' =>
      if Ascii.eqb a b then strip from' to' else None
  | String _ _, EmptyString => None
  end.

(** 7 March 2024; the clock advances one millisecond per reading. *)
Definition date (k : nat) : Date :=
  {| getTime := 1709800000000 + Z.of_nat k;
     toISOString := "2024-03-07T08:26:40.000Z";
     getFullYear := 2024; getMonth := 2; getDate := 7 |}.

Definition host : Host :=
  {| cwd := "/app";
     __filename := logger_file;
     relative := fun from to => default to (strip (from ++ "/") to);
     clock := date;
     stack := fun k => Some (frames k) |}.

Definition here : CallerInfo :=
  {| fileName := "src/main.js:7"; method := "main" |}.

(** A logger created at [here]. *)
Definition logger (prefix : option string) : Instance :=
  {| timeMap := ∅; prefix := prefix; creationInfo := here;
     parentTrace := None |}.

(** The initial world with one logger allocated and [/tmp/logs] as log
    directory. *)
Definition world (prefix : option string) : World :=
  set_logDirectory "/tmp/logs" (set_heap [logger prefix] (initial host)).


(** The world after [family] from the initial one: the loggers are at
    0, 1 and 2. *)
Definition traced : World :=
  Eval vm_compute in world_of (family host None (initial host)).

(** The logger [b] of that world. *)
Definition traced_b : Instance :=
  Eval vm_compute in default (logger None) (heap traced !! 2%nat).

(** The world after [timeStart("x")] on the one logger of
    [world None], and that logger. *)
Definition timed : World :=
  Eval vm_compute in world_of (timeStart host 0%nat "x" (world None)).

Definition timed_logger : Instance :=
  Eval vm_compute in default (logger None) (heap timed !! 0%nat).

(** A logger whose timer ["x"] was started when the clock read 0, and a
    world holding it. *)
Definition zero_timer : Instance :=
  set_timeMap (insert "x" 0) (logger None).

Definition zero_timed : World := set_heap [zero_timer] (world None).

(** A host like [host] whose clock passes midnight after the first
    reading: 7 March 2024, then 8 March. *)
Definition date_across (k : nat) : Date :=
  match k with
  | O => date 0
  | S _ =>
      {| getTime := 1709856000000 + Z.of_nat k;
         toISOString := "2024-03-08T00:00:00.000Z";
         getFullYear := 2024; getMonth := 2; getDate := 8 |}
  end.

(** A host like [host] whose clock is set back by five milliseconds after
    the first reading. *)
Definition date_back (k : nat) : Date :=
  match k with
  | O => date 5
  | S _ => date 0
  end.

Definition back_host : Host :=
  {| cwd := "/app";
     __filename := logger_file;
     relative := fun from to => default to (strip (from ++ "/") to);
     clock := date_back;
     stack := fun k => Some (frames k) |}.

Definition night_host : Host :=
  {| cwd := "/app";
     __filename := logger_file;
     relative := fun from to => default to (strip (from ++ "/") to);
     clock := date_across;
     stack := fun k => Some (frames k) |}.

End Demo.

(** ** Lemmas on the level table *)

Lemma LoggerLevels_key (l : Level) : LoggerLevels (key l) = Rank (rank l).
Proof. destruct l; reflexivity. Qed.

Lemma js_lt_key (l g : Level) :
  js_lt (LoggerLevels (key l)) (LoggerLevels (key g)) = (rank l <? rank g).
Proof. rewrite !LoggerLevels_key. reflexivity. Qed.


Lemma to_file_key (l : Level) :
  JS.array_includes ["ERROR"; "FATAL"] (key l)
  = match l with ERROR | FATAL => true | _ => false end.
Proof. destruct l; reflexivity. Qed.




(** ** Lemmas on the operations *)

Lemma ParentTrace_induction (P : ParentTrace -> Prop) :
  (forall pp pci cci, P (Build_ParentTrace pp pci cci None)) ->
  (forall pp pci cci t, P t -> P (Build_ParentTrace pp pci cci (Some t))) ->
  forall t, P t.
Proof.
  intros Hlast Hlink. fix IH 1.
  intros [pp pci cci [t|]]; [apply Hlink, IH | apply Hlast].
Qed.

Lemma traceMessages_links (t : ParentTrace) :
  traceMessages t = map trace_line (links t).
Proof.
  induction t as [pp pci cci | pp pci cci t IH] using ParentTrace_induction;
    simpl; [reflexivity | now rewrite IH].
Qed.

Lemma links_length (t : ParentTrace) :
  List.length (links t) = S (List.length (chain (inheritedTrace t))).
Proof. destruct t as [pp pci cci [t|]]; reflexivity. Qed.

Lemma console_block_head (level : string) (messages : list JS.Value)
      (color bgColor timestamp : string) (caller : CallerInfo)
      (prefix : option string) :
  console_block level messages color bgColor timestamp caller prefix
  = (block_head level color bgColor timestamp caller prefix
     ++ messages ++ [JS.Str JS.LF])%list.
Proof. reflexivity. Qed.

Lemma padStart_key (l : Level) : JS.padStart 10 " "%char (key l) = padded l.
Proof. destruct l; reflexivity. Qed.

Lemma block_head_severity (l : Level) (color bgColor timestamp : string)
      (caller : CallerInfo) (prefix : option string) :
  block_head (key l) color bgColor timestamp caller prefix
  = severity_head l color bgColor timestamp caller prefix.
Proof.
  unfold block_head, severity_head. rewrite padStart_key.
  destruct prefix as [p|]; cbn [JS.truthy JS.template prefix_argument];
    [destruct (String.eqb p "")|]; reflexivity.
Qed.

Lemma file_line_fields (level joined timestamp : string) (caller : CallerInfo)
      (prefix : option string) :
  file_line level joined timestamp caller prefix
  = timestamp ++ " | " ++ level ++ " | " ++ fileName caller ++ " | "
    ++ method caller ++ prefix_field prefix ++ " | " ++ joined.
Proof.
  unfold file_line.
  destruct prefix as [p|]; cbn [JS.truthy JS.template prefix_field];
    [destruct (String.eqb p "")|]; reflexivity.
Qed.

(** [join] stops at the first fragment that cannot be converted, whatever
    follows it. *)
Lemma join_app_abrupt (sep : string) (a b : list JS.Value) (e : Exn) :
  JS.join sep a = JS.Abrupt e -> JS.join sep (a ++ b) = JS.Abrupt e.
Proof.
  induction a as [|v a IH]; intros H; [discriminate|].
  destruct a as [|v' a'].
  - change (JS.join_element v = JS.Abrupt e) in H.
    destruct b as [|v' b']; [exact H|].
    change (match JS.join_element v with
            | JS.Normal s =>
                match JS.join sep (v' :: b') with
                | JS.Normal r => JS.Normal (s ++ sep ++ r)
                | JS.Abrupt e' => JS.Abrupt e'
                end
            | JS.Abrupt e' => JS.Abrupt e'
            end = JS.Abrupt e).
    now rewrite H.
  - change (match JS.join_element v with
            | JS.Normal s =>
                match JS.join sep (v' :: a') with
                | JS.Normal r => JS.Normal (s ++ sep ++ r)
                | JS.Abrupt e' => JS.Abrupt e'
                end
            | JS.Abrupt e' => JS.Abrupt e'
            end = JS.Abrupt e) in H.
    change (match JS.join_element v with
            | JS.Normal s =>
                match JS.join sep ((v' :: a') ++ b) with
                | JS.Normal r => JS.Normal (s ++ sep ++ r)
                | JS.Abrupt e' => JS.Abrupt e'
                end
            | JS.Abrupt e' => JS.Abrupt e'
            end = JS.Abrupt e).
    destruct (JS.join_element v) as [s|e']; [|exact H].
    destruct (JS.join sep (v' :: a')) as [r|e'] eqn:E; [discriminate|].
    injection H as ->. now rewrite (IH eq_refl).
Qed.

(** The trace lines that [log] appends are strings: they do not change
    whether the fragments can be converted. *)
Lemma join_app_strings (sep : string) (a : list JS.Value) (l : list string)
      (joined : string) :
  JS.join sep a = JS.Normal joined ->
  exists joined', JS.join sep (a ++ map JS.Str l) = JS.Normal joined'.
Proof.
  revert joined. induction a as [|v a IH]; intros joined H.
  - cbn [app]. clear H. induction l as [|x l IHl]; [now exists ""|].
    destruct IHl as [r Hr]. destruct l as [|y l'].
    + now exists x.
    + exists (x ++ sep ++ r).
      change (match JS.join sep (map JS.Str (y :: l')) with
              | JS.Normal r => JS.Normal (x ++ sep ++ r)
              | JS.Abrupt e' => JS.Abrupt e'
              end = JS.Normal (x ++ sep ++ r)).
      now rewrite Hr.
  - destruct a as [|v' a'].
    + change (JS.join_element v = JS.Normal joined) in H.
      destruct l as [|x l']; [now exists joined|].
      destruct (IH "" eq_refl) as [r Hr]. exists (joined ++ sep ++ r).
      change (match JS.join_element v with
              | JS.Normal s =>
                  match JS.join sep ([] ++ map JS.Str (x :: l')) with
                  | JS.Normal r => JS.Normal (s ++ sep ++ r)
                  | JS.Abrupt e' => JS.Abrupt e'
                  end
              | JS.Abrupt e' => JS.Abrupt e'
              end = JS.Normal (joined ++ sep ++ r)).
      now rewrite H, Hr.
    + change (match JS.join_element v with
              | JS.Normal s =>
                  match JS.join sep (v' :: a') with
                  | JS.Normal r => JS.Normal (s ++ sep ++ r)
                  | JS.Abrupt e' => JS.Abrupt e'
                  end
              | JS.Abrupt e' => JS.Abrupt e'
              end = JS.Normal joined) in H.
      destruct (JS.join_element v) as [s|e'] eqn:Ev; [|discriminate].
      destruct (JS.join sep (v' :: a')) as [r|e'] eqn:E; [|discriminate].
      destruct (IH r eq_refl) as [r' Hr']. exists (s ++ sep ++ r').
      change (match JS.join_element v with
              | JS.Normal s =>
                  match JS.join sep ((v' :: a') ++ map JS.Str l) with
                  | JS.Normal r => JS.Normal (s ++ sep ++ r)
                  | JS.Abrupt e' => JS.Abrupt e'
                  end
              | JS.Abrupt e' => JS.Abrupt e'
              end = JS.Normal (s ++ sep ++ r')).
      now rewrite Ev, Hr'.
Qed.

Lemma converts_fragments (e : Entry) (self : Instance)
      (messages : list JS.Value) :
  converts messages -> converts (fragments e self messages).
Proof.
  intros [joined H]. destruct e; cbn [fragments]; [|now exists joined].
  destruct (join_app_strings " " messages
              (map (fun t =>
                      "Trace: Parent created at "
                      ++ fileName (parentCreationInfo t)
                      ++ ", Child created at "
                      ++ fileName (childCreationInfo t))
                   (rev (chain (parentTrace self))))
              joined H) as [joined' H'].
  rewrite map_map in H'. now exists joined'.
Qed.

Ltac run :=
  cbv [mbind mret M_bind M_ret gets modify throw deref update alloc
       new_Date Date_now console_log existsSync mkdirSync_recursive
       appendFileSync __getCallerInfo new_Logger];
  cbn [heap console files dirs clockReads stackCaptures globalLogLevel
       logDirectory enableFileLogging set_heap set_console set_files
       set_dirs set_clockReads set_stackCaptures set_globalLogLevel
       set_logDirectory set_enableFileLogging world_of].

Section Operations.

Variable host : Host.

Lemma __logToFile_spec (message : string) (w : World) :
  let today := clock host (clockReads w) in
  let year := JS.Number_toString (getFullYear today) in
  let month :=
    JS.padStart 2 "0"%char (JS.Number_toString (getMonth today + 1)) in
  let date :=
    JS.padStart 2 "0"%char (JS.Number_toString (getDate today)) in
  let logDir :=
    NodePath.join [logDirectory w; year ++ "/" ++ year ++ "-" ++ month] in
  let logFile :=
    NodePath.join [logDir; year ++ "-" ++ month ++ "-" ++ date ++ ".log"] in
  __logToFile host message w =
  Returns tt
    (if enableFileLogging w then
       set_files
         (<[logFile := default "" (files w !! logFile) ++ message ++ JS.LF]>
            (files w))
         (set_dirs
            (if bool_decide (logDir ∈ dirs w)
                || bool_decide (is_Some (files w !! logDir))
             then dirs w
             else dirs w ∪ list_to_set (NodePath.with_ancestors logDir))
            (set_clockReads (S (clockReads w)) w))
     else w).
Proof.
  intros today year month date logDir logFile.
  unfold __logToFile. run.
  destruct (enableFileLogging w) eqn:En; cbn [negb]; [|reflexivity].
  fold today year month date. fold logDir. fold logFile.
  destruct (bool_decide (logDir ∈ dirs w)
            || bool_decide (is_Some (files w !! logDir)));
    cbn [negb]; run; reflexivity.
Qed.

Lemma __log_filtered (this : ref) (level : string)
      (messages : list JS.Value) (color bgColor : string) (w : World) :
  js_lt (LoggerLevels level) (LoggerLevels (globalLogLevel w)) = true ->
  __log host this level messages color bgColor w = Returns this w.
Proof. intros H. unfold __log. run. now rewrite H. Qed.

Lemma __log_admitted (this : ref) (self : Instance) (level : string)
      (messages : list JS.Value) (color bgColor : string) (w : World) :
  heap w !! this = Some self ->
  js_lt (LoggerLevels level) (LoggerLevels (globalLogLevel w)) = false ->
  let now := clock host (clockReads w) in
  let caller := resolve_caller host (stack host (stackCaptures w)) in
  let w1 :=
    set_console
      (console w ++
       [console_block level messages color bgColor (toISOString now) caller
          (prefix self)])
      (set_stackCaptures (S (stackCaptures w))
         (set_clockReads (S (clockReads w)) w)) in
  __log host this level messages color bgColor w =
  if JS.array_includes ["ERROR"; "FATAL"] level then
    match JS.join " " messages with
    | JS.Normal joined =>
        Returns this
          (world_of
             (__logToFile host
                (file_line level joined (toISOString now) caller
                   (prefix self)) w1))
    | JS.Abrupt e => Throws e w1
    end
  else Returns this w1.
Proof.
  intros Hthis Hlt now caller w1.
  unfold __log. run. rewrite Hlt, Hthis.
  fold now caller.
  destruct (JS.array_includes ["ERROR"; "FATAL"] level); [|reflexivity].
  destruct (JS.join " " messages) as [joined|e]; [|reflexivity].
  match goal with
  | |- context [__logToFile host ?m ?w] =>
      replace w with w1 by reflexivity;
      rewrite (__logToFile_spec m w1)
  end.
  reflexivity.
Qed.

(** The world an admitted call leaves, whether it returned or threw. *)
Lemma __log_world (this : ref) (self : Instance) (level : string)
      (messages : list JS.Value) (color bgColor : string) (w : World) :
  heap w !! this = Some self ->
  js_lt (LoggerLevels level) (LoggerLevels (globalLogLevel w)) = false ->
  let now := clock host (clockReads w) in
  let caller := resolve_caller host (stack host (stackCaptures w)) in
  let w1 :=
    set_console
      (console w ++
       [console_block level messages color bgColor (toISOString now) caller
          (prefix self)])
      (set_stackCaptures (S (stackCaptures w))
         (set_clockReads (S (clockReads w)) w)) in
  world_of (__log host this level messages color bgColor w) =
  if JS.array_includes ["ERROR"; "FATAL"] level then
    match JS.join " " messages with
    | JS.Normal joined =>
        world_of
          (__logToFile host
             (file_line level joined (toISOString now) caller (prefix self))
             w1)
    | JS.Abrupt _ => w1
    end
  else w1.
Proof.
  intros Hthis Hlt now caller w1.
  rewrite (__log_admitted this self) by assumption. cbv zeta.
  destruct (JS.array_includes _ _); [|reflexivity].
  destruct (JS.join " " messages); reflexivity.
Qed.

(** The file sink leaves the console, the heap and the configuration
    alone. *)
Lemma __logToFile_frame (message : string) (w : World) :
  let w' := world_of (__logToFile host message w) in
  console w' = console w /\ heap w' = heap w
  /\ globalLogLevel w' = globalLogLevel w
  /\ logDirectory w' = logDirectory w
  /\ enableFileLogging w' = enableFileLogging w
  /\ stackCaptures w' = stackCaptures w.
Proof.
  rewrite __logToFile_spec. cbn [world_of].
  destruct (enableFileLogging w) eqn:En; repeat split; try assumption;
    reflexivity.
Qed.

(** What an admitted call leaves, whether it returned or threw: one more
    console block, the loggers and the configuration as they were. *)
Lemma __log_admitted_frame (this : ref) (self : Instance) (level : string)
      (messages : list JS.Value) (color bgColor : string) (w : World) :
  heap w !! this = Some self ->
  js_lt (LoggerLevels level) (LoggerLevels (globalLogLevel w)) = false ->
  let w' := world_of (__log host this level messages color bgColor w) in
  console w'
  = (console w ++
     [console_block level messages color bgColor
        (toISOString (clock host (clockReads w)))
        (resolve_caller host (stack host (stackCaptures w)))
        (prefix self)])%list
  /\ heap w' = heap w
  /\ globalLogLevel w' = globalLogLevel w
  /\ logDirectory w' = logDirectory w
  /\ enableFileLogging w' = enableFileLogging w.
Proof.
  intros Hthis Hlt w'. unfold w'.
  rewrite (__log_world this self) by assumption. cbv zeta.
  set (w1 := set_console _ _).
  assert (H1 : console w1
               = (console w ++
                  [console_block level messages color bgColor
                     (toISOString (clock host (clockReads w)))
                     (resolve_caller host (stack host (stackCaptures w)))
                     (prefix self)])%list
               /\ heap w1 = heap w
               /\ globalLogLevel w1 = globalLogLevel w
               /\ logDirectory w1 = logDirectory w
               /\ enableFileLogging w1 = enableFileLogging w)
    by (repeat split; reflexivity).
  destruct (JS.array_includes _ _); [|exact H1].
  destruct (JS.join " " messages) as [joined|err]; [|exact H1].
  match goal with
  | |- context [__logToFile host ?m w1] =>
      pose proof (__logToFile_frame m w1) as (Hc & Hh & Hl & Hd & He & _)
  end.
  rewrite Hc, Hh, Hl, Hd, He. exact H1.
Qed.

(** [__log] on a live logger returns the logger unless the level is ERROR
    or FATAL and a fragment cannot be converted. *)
Lemma __log_outcome (this : ref) (self : Instance) (level : string)
      (messages : list JS.Value) (color bgColor : string) (w : World) :
  heap w !! this = Some self ->
  JS.array_includes ["ERROR"; "FATAL"] level = false \/ converts messages ->
  __log host this level messages color bgColor w
  = Returns this (world_of (__log host this level messages color bgColor w)).
Proof.
  intros Hthis Hok.
  destruct (js_lt (LoggerLevels level) (LoggerLevels (globalLogLevel w)))
    eqn:Hlt.
  - now rewrite __log_filtered.
  - rewrite (__log_admitted this self) by assumption. cbv zeta.
    destruct Hok as [-> | [joined ->]]; [reflexivity|].
    destruct (JS.array_includes _ _); reflexivity.
Qed.


(** Every entry point is [__log] on the entry's message list. *)
Lemma invoke_spec (e : Entry) (l : Level)
      (call : ref -> list JS.Value -> M ref) (this : ref) (self : Instance)
      (messages : list JS.Value) (w : World) :
  invoke host e l = Some call ->
  heap w !! this = Some self ->
  exists color bgColor,
    call this messages w
    = __log host this (key l) (fragments e self messages) color bgColor w.
Proof.
  intros Hcall Hthis. destruct e; cbn [invoke fragments] in *.
  - injection Hcall as <-. exists LoggerColors.Reset, LoggerColors.Reset.
    unfold log. run. rewrite Hthis.
    destruct (parentTrace self) as [t|]; cbn [chain].
    + now rewrite traceMessages_links, <- map_rev, map_map.
    + cbn [rev map]. now rewrite app_nil_r.
  - destruct l; cbn [shortcut] in Hcall; try discriminate;
      injection Hcall as <-; eexists _, _; reflexivity.
Qed.

Lemma child_spec (this : ref) (self : Instance) (p : option string)
      (tr : bool) (w : World) :
  heap w !! this = Some self ->
  let k := stackCaptures w in
  let obj :=
    {| timeMap := ∅;
       prefix :=
         if JS.truthy (prefix self)
         then Some (JS.template (prefix self) ++ " -> " ++ JS.template p)
         else p;
       creationInfo := resolve_caller host (stack host (S k));
       parentTrace :=
         if tr then
           Some {| parentPrefix := prefix self;
                   parentCreationInfo := creationInfo self;
                   childCreationInfo := resolve_caller host (stack host k);
                   inheritedTrace := parentTrace self |}
         else None |} in
  child host this p tr w
  = Returns (List.length (heap w))
            (set_heap (heap w ++ [obj]) (set_stackCaptures (S (S k)) w)).
Proof.
  intros Hthis k obj. unfold child. run. rewrite Hthis. fold k.
  destruct tr; run; [|reflexivity].
  rewrite list_lookup_middle by reflexivity.
  rewrite insert_app_r_alt by reflexivity.
  rewrite Nat.sub_diag. reflexivity.
Qed.

Lemma new_Logger_spec (p : option string) (w : World) :
  new_Logger host p w
  = Returns (List.length (heap w))
      (set_heap
         (heap w ++
          [{| timeMap := ∅; prefix := p;
              creationInfo :=
                resolve_caller host (stack host (stackCaptures w));
              parentTrace := None |}])
         (set_stackCaptures (S (stackCaptures w)) w)).
Proof. reflexivity. Qed.

Lemma timeStart_spec (this : ref) (self : Instance) (label : string)
      (w : World) :
  heap w !! this = Some self ->
  timeStart host this label w
  = Returns this
      (set_heap
         (<[this := set_timeMap
                      (timeMap_set label
                         (getTime (clock host (clockReads w))))
                      self]> (heap w))
         (set_clockReads (S (clockReads w)) w)).
Proof. intros Hthis. unfold timeStart. run. now rewrite Hthis. Qed.

Lemma __log_TIME (this : ref) (self : Instance) (g : Level) (line : string)
      (color bgColor : string) (w : World) :
  heap w !! this = Some self ->
  globalLogLevel w = key g ->
  exists w',
    __log host this "TIME" [JS.Str line] color bgColor w = Returns this w'
    /\ heap w' = heap w
    /\ globalLogLevel w' = globalLogLevel w
    /\ TIME_line g w w' line.
Proof.
  intros Hthis Hg.
  destruct (rank TIME <? rank g) eqn:Hrank.
  - exists w. rewrite __log_filtered.
    + apply Z.ltb_lt in Hrank. unfold TIME_line. repeat split; try reflexivity.
      intros Hle. lia.
    + rewrite Hg. change "TIME" with (key TIME). now rewrite js_lt_key.
  - eexists. rewrite (__log_admitted this self).
    + cbn [JS.array_includes existsb String.eqb Ascii.eqb Bool.eqb orb andb].
      split; [reflexivity|]. cbn [heap globalLogLevel set_console
        set_stackCaptures set_clockReads].
      repeat split; try reflexivity.
      * intros _. cbn [console set_console]. unfold console_block.
        eexists. split.
        -- rewrite (app_assoc _ [JS.Str line] [JS.Str JS.LF]).
           rewrite <- (app_assoc _ [JS.Str line] [JS.Str JS.LF]).
           reflexivity.
        -- set_solver.
      * intros Hlt. apply Z.ltb_ge in Hrank. lia.
    + exact Hthis.
    + rewrite Hg. change "TIME" with (key TIME). now rewrite js_lt_key.
Qed.

Lemma timeEnd_running (this : ref) (self : Instance) (label : string)
      (t0 : Z) (g : Level) (w : World) :
  heap w !! this = Some self ->
  globalLogLevel w = key g ->
  timeMap self !! label = Some t0 ->
  t0 <> 0 ->
  exists w',
    timeEnd host this label w = Returns this w'
    /\ heap w' = <[this := set_timeMap (delete label) self]> (heap w)
    /\ globalLogLevel w' = globalLogLevel w
    /\ TIME_line g w w'
         (label ++ ": "
          ++ JS.Number_toString (getTime (clock host (clockReads w)) - t0)
          ++ "ms").
Proof.
  intros Hthis Hg Ht0 Hnz.
  unfold timeEnd. run. rewrite Hthis. unfold timeMap_get. rewrite Ht0.
  cbn [truthy_slot elapsed_text].
  destruct (Z.eqb_spec t0 0) as [->|_]; [congruence|]. cbn [negb]. run.
  destruct (__log_TIME this self g
              (label ++ ": "
               ++ JS.Number_toString (getTime (clock host (clockReads w)) - t0)
               ++ "ms")
              LoggerColors.FgGreen LoggerColors.BgBlack
              (set_clockReads (S (clockReads w)) w) Hthis Hg)
    as (w' & -> & Hheap & Hlvl & Hline).
  cbn [heap set_clockReads] in Hheap. rewrite Hheap, Hthis.
  eexists. split; [reflexivity|].
  split; [reflexivity|]. split; [exact Hlvl|]. exact Hline.
Qed.

(** [timeEnd] on a label the map does not have itself but inherits: the
    inherited member is truthy and is no number. *)
Lemma timeEnd_inherited (this : ref) (self : Instance) (label text : string)
      (g : Level) (w : World) :
  heap w !! this = Some self ->
  globalLogLevel w = key g ->
  timeMap self !! label = None ->
  JS.Object_prototype label = Some text ->
  exists w',
    timeEnd host this label w = Returns this w'
    /\ heap w' = heap w
    /\ globalLogLevel w' = globalLogLevel w
    /\ TIME_line g w w' (label ++ ": NaNms").
Proof.
  intros Hthis Hg Hnone Hproto.
  unfold timeEnd. run. rewrite Hthis. unfold timeMap_get.
  rewrite Hnone, Hproto. cbn [truthy_slot elapsed_text]. run.
  destruct (__log_TIME this self g (label ++ ": " ++ "NaN" ++ "ms")
              LoggerColors.FgGreen LoggerColors.BgBlack
              (set_clockReads (S (clockReads w)) w) Hthis Hg)
    as (w' & -> & Hheap & Hlvl & Hline).
  cbn [heap set_clockReads] in Hheap. rewrite Hheap, Hthis.
  eexists. split; [reflexivity|]. cbn [heap set_heap].
  split.
  { apply list_insert_id. etransitivity; [exact Hthis|]. f_equal.
    destruct self as [m p c t]. unfold set_timeMap. cbn [timeMap prefix
      creationInfo parentTrace] in *. now rewrite delete_id. }
  split; [exact Hlvl | exact Hline].
Qed.

Lemma timeEnd_idle (this : ref) (self : Instance) (label : string)
      (g : Level) (w : World) :
  heap w !! this = Some self ->
  globalLogLevel w = key g ->
  timeMap self !! label = None ->
  JS.Object_prototype label = None ->
  exists w',
    timeEnd host this label w = Returns this w'
    /\ heap w' = heap w
    /\ globalLogLevel w' = globalLogLevel w
    /\ TIME_line g w w' (label ++ ": -1ms").
Proof.
  intros Hthis Hg Hnone Hproto.
  unfold timeEnd. run. rewrite Hthis. unfold timeMap_get.
  rewrite Hnone, Hproto. cbn [truthy_slot]. run.
  destruct (__log_TIME this self g (label ++ ": -1ms")
              LoggerColors.FgRed LoggerColors.BgBlack w Hthis Hg)
    as (w' & -> & Hheap & Hlvl & Hline).
  exists w'. split; [reflexivity|].
  split; [exact Hheap|]. split; [exact Hlvl | exact Hline].
Qed.

End Operations.

(** ** Facts on strings *)

Lemma append_grows (s t : string) : t <> "" -> s ++ t <> s.
Proof.
  intros Ht. induction s as [|c s IH]; cbn [String.append].
  - exact Ht.
  - intros H. injection H as H. exact (IH H).
Qed.

Lemma append_assoc (s t u : string) : (s ++ t) ++ u = s ++ t ++ u.
Proof.
  induction s as [|c s IH]; [reflexivity|].
  change (String c ((s ++ t) ++ u) = String c (s ++ t ++ u)).
  now rewrite IH.
Qed.

(** ** Facts on [path.join] *)

Lemma append_nil_l (t : string) : "" ++ t = t.
Proof. reflexivity. Qed.

Lemma append_cons (c : ascii) (s t : string) :
  String c s ++ t = String c (s ++ t).
Proof. reflexivity. Qed.

Lemma all_chars_app (P : ascii -> bool) (s t : string) :
  all_chars P (s ++ t) = all_chars P s && all_chars P t.
Proof.
  induction s as [|c s IH]; [reflexivity|].
  rewrite append_cons. cbn [all_chars]. rewrite IH. now rewrite andb_assoc.
Qed.

Lemma all_chars_weaken (P Q : ascii -> bool) (s : string) :
  (forall c, P c = true -> Q c = true) ->
  all_chars P s = true -> all_chars Q s = true.
Proof.
  intros HPQ. induction s as [|c s IH]; [reflexivity|]. cbn [all_chars].
  intros [Hc Hs]%andb_true_iff. rewrite (HPQ c Hc). now apply IH.
Qed.

Lemma decimal_no_slash (c : ascii) :
  decimal_char c = true -> not_slash c = true.
Proof.
  unfold decimal_char, not_slash. destruct (Ascii.eqb_spec c NodePath.slash) as [->|]; 
    [discriminate | reflexivity].
Qed.

Lemma split_plain (a : string) :
  all_chars not_slash a = true -> NodePath.split a = [a].
Proof.
  induction a as [|c a IH]; [reflexivity|]. cbn [all_chars NodePath.split].
  unfold not_slash at 1. intros [Hc Ha]%andb_true_iff.
  apply negb_true_iff in Hc. rewrite Hc, (IH Ha). reflexivity.
Qed.

Lemma split_segment (a rest : string) :
  all_chars not_slash a = true ->
  NodePath.split (a ++ "/" ++ rest) = a :: NodePath.split rest.
Proof.
  induction a as [|c a IH]; [reflexivity|]. rewrite append_cons.
  cbn [all_chars NodePath.split]. unfold not_slash at 1.
  intros [Hc Ha]%andb_true_iff. apply negb_true_iff in Hc.
  rewrite Hc, (IH Ha). reflexivity.
Qed.

Lemma plain_segment_no_slash (s : string) :
  plain_segment s = true -> all_chars not_slash s = true.
Proof.
  unfold plain_segment. intros H.
  repeat (apply andb_true_iff in H as [H _]). exact H.
Qed.

Lemma split_concat (segs : list string) :
  segs <> [] ->
  forallb plain_segment segs = true ->
  NodePath.split (NodePath.concat_with "/" segs) = segs.
Proof.
  induction segs as [|a [|b rest] IH]; [congruence| |].
  - intros _ [Ha _]%andb_true_iff. cbn [NodePath.concat_with].
    now apply split_plain, plain_segment_no_slash.
  - intros _ [Ha Hrest]%andb_true_iff.
    change (NodePath.concat_with "/" (a :: b :: rest))
      with (a ++ "/" ++ NodePath.concat_with "/" (b :: rest)).
    rewrite split_segment by now apply plain_segment_no_slash.
    now rewrite IH.
Qed.

Lemma resolve_plain (allowAboveRoot : bool) (segs : list string) :
  forallb plain_segment segs = true ->
  forall acc,
    NodePath.resolve_segments allowAboveRoot acc segs = (rev acc ++ segs)%list.
Proof.
  induction segs as [|seg rest IH]; intros Hsegs acc.
  - cbn [NodePath.resolve_segments]. now rewrite app_nil_r.
  - apply andb_true_iff in Hsegs as [Hseg Hrest].
    cbn [NodePath.resolve_segments]. unfold plain_segment in Hseg.
    apply andb_true_iff in Hseg as [Hseg H2].
    apply andb_true_iff in Hseg as [Hseg H1].
    apply andb_true_iff in Hseg as [_ H0].
    apply negb_true_iff in H0, H1, H2. rewrite H0, H1, H2. cbn [orb].
    rewrite (IH Hrest). cbn [rev]. now rewrite <- app_assoc.
Qed.

Lemma plain_segment_headed (s : string) :
  plain_segment s = true ->
  exists c r, s = String c r /\ not_slash c = true.
Proof.
  destruct s as [|c r]; [discriminate|]. intros H.
  apply plain_segment_no_slash in H. cbn [all_chars] in H.
  apply andb_true_iff in H as [Hc _]. now exists c, r.
Qed.

Lemma ends_with_slash_cons (a : ascii) (s : string) :
  s <> "" ->
  NodePath.ends_with_slash (String a s) = NodePath.ends_with_slash s.
Proof. destruct s; [congruence | reflexivity]. Qed.

Lemma ends_with_slash_app (s : string) (c : ascii) (r : string) :
  NodePath.ends_with_slash (s ++ String c r)
  = NodePath.ends_with_slash (String c r).
Proof.
  induction s as [|a s IH]; [reflexivity|]. rewrite append_cons.
  rewrite ends_with_slash_cons; [exact IH|].
  destruct s; discriminate.
Qed.

Lemma ends_with_slash_plain (s : string) :
  all_chars not_slash s = true -> NodePath.ends_with_slash s = false.
Proof.
  induction s as [|c s IH]; [reflexivity|]. cbn [all_chars].
  intros [Hc Hs]%andb_true_iff. cbn [NodePath.ends_with_slash].
  destruct s; [|now apply IH].
  unfold not_slash in Hc. now apply negb_true_iff in Hc.
Qed.

Lemma ends_with_slash_concat (segs : list string) :
  segs <> [] ->
  forallb plain_segment segs = true ->
  NodePath.ends_with_slash (NodePath.concat_with "/" segs) = false.
Proof.
  induction segs as [|a [|b rest] IH]; [congruence| |].
  - intros _ [Ha _]%andb_true_iff.
    now apply ends_with_slash_plain, plain_segment_no_slash.
  - intros _ [Ha Hrest]%andb_true_iff.
    change (NodePath.concat_with "/" (a :: b :: rest))
      with (a ++ "/" ++ NodePath.concat_with "/" (b :: rest)).
    specialize (IH ltac:(discriminate) Hrest).
    destruct (NodePath.concat_with "/" (b :: rest)) as [|c r] eqn:E.
    + exfalso. cbn [NodePath.concat_with] in E.
      apply andb_true_iff in Hrest as [Hb _].
      destruct (plain_segment_headed b Hb) as (c & r & -> & _).
      destruct rest; discriminate E.
    + rewrite <- append_assoc, ends_with_slash_app. exact IH.
Qed.

Lemma concat_headed (segs : list string) :
  segs <> [] ->
  forallb plain_segment segs = true ->
  exists c r, NodePath.concat_with "/" segs = String c r /\ not_slash c = true.
Proof.
  destruct segs as [|a rest]; [congruence|].
  intros _ [Ha _]%andb_true_iff.
  destruct (plain_segment_headed a Ha) as (c & r & -> & Hc).
  destruct rest; cbn [NodePath.concat_with]; eauto.
Qed.

Lemma normalize_plain (absolute : bool) (segs : list string) :
  segs <> [] ->
  forallb plain_segment segs = true ->
  NodePath.normalize (plain_path absolute segs) = plain_path absolute segs.
Proof.
  intros Hne Hsegs.
  destruct (concat_headed segs Hne Hsegs) as (c & r & Hbody & Hc).
  pose proof (ends_with_slash_concat segs Hne Hsegs) as Hend.
  pose proof (split_concat segs Hne Hsegs) as Hsplit.
  unfold NodePath.normalize, plain_path.
  destruct absolute.
  - rewrite append_cons, append_nil_l.
    cbn [String.eqb NodePath.starts_with_slash].
    change (Ascii.eqb "/" NodePath.slash) with true. cbn [negb].
    replace (NodePath.ends_with_slash (String "/" (NodePath.concat_with "/" segs)))
      with false.
    2:{ rewrite Hbody in *. symmetry. exact Hend. }
    cbn [NodePath.split]. change (Ascii.eqb "/" NodePath.slash) with true.
    cbn iota. rewrite Hsplit.
    cbn [NodePath.resolve_segments String.eqb orb].
    rewrite resolve_plain by assumption. cbn [rev app].
    rewrite Hbody. reflexivity.
  - rewrite append_nil_l, Hend, Hsplit.
    rewrite resolve_plain by assumption. cbn [rev app].
    rewrite Hbody. cbn [String.eqb NodePath.starts_with_slash].
    unfold not_slash in Hc. apply negb_true_iff in Hc. rewrite Hc.
    reflexivity.
Qed.

Lemma concat_with_app (segs1 segs2 : list string) :
  segs1 <> [] -> segs2 <> [] ->
  NodePath.concat_with "/" (segs1 ++ segs2)
  = NodePath.concat_with "/" segs1 ++ "/" ++ NodePath.concat_with "/" segs2.
Proof.
  intros H1 H2. induction segs1 as [|a [|b rest] IH]; [congruence| |].
  - destruct segs2; [congruence|]. reflexivity.
  - change (NodePath.concat_with "/" ((a :: b :: rest) ++ segs2))
      with (a ++ "/" ++ NodePath.concat_with "/" ((b :: rest) ++ segs2)).
    rewrite IH by discriminate.
    change (NodePath.concat_with "/" (a :: b :: rest))
      with (a ++ "/" ++ NodePath.concat_with "/" (b :: rest)).
    now rewrite !append_assoc.
Qed.

(** Joining a plain path with more plain segments only puts a slash in
    between. *)
Lemma join_plain (absolute : bool) (segs more : list string) :
  segs <> [] -> more <> [] ->
  forallb plain_segment segs = true ->
  forallb plain_segment more = true ->
  NodePath.join [plain_path absolute segs; NodePath.concat_with "/" more]
  = plain_path absolute (segs ++ more)
  /\ plain_path absolute (segs ++ more)
     = plain_path absolute segs ++ "/" ++ NodePath.concat_with "/" more.
Proof.
  intros Hne Hne' Hsegs Hmore.
  assert (Heq : plain_path absolute (segs ++ more)
                = plain_path absolute segs ++ "/"
                  ++ NodePath.concat_with "/" more).
  { unfold plain_path. rewrite concat_with_app by assumption.
    now rewrite append_assoc. }
  split; [|exact Heq].
  destruct (concat_headed segs Hne Hsegs) as (c & r & Hbody & _).
  destruct (concat_headed more Hne' Hmore) as (c' & r' & Hbody' & _).
  unfold NodePath.join. 
  assert (Hd : plain_path absolute segs <> "")
    by (unfold plain_path; rewrite Hbody; destruct absolute; discriminate).
  assert (Hx : NodePath.concat_with "/" more <> "")
    by (rewrite Hbody'; discriminate).
  rewrite filter_cons_True by exact Hd.
  rewrite filter_cons_True by exact Hx.
  rewrite filter_nil.
  change (NodePath.concat_with "/"
            [plain_path absolute segs; NodePath.concat_with "/" more])
    with (plain_path absolute segs ++ "/" ++ NodePath.concat_with "/" more).
  rewrite <- Heq. apply normalize_plain.
  - destruct segs; [congruence | discriminate].
  - rewrite forallb_app. now rewrite Hsegs, Hmore.
Qed.

(** Printed integers, and what the file sink builds from them, are plain
    segments. *)

Lemma uint_decimal (d : Decimal.uint) :
  all_chars decimal_char (NilEmpty.string_of_uint d) = true.
Proof. induction d; cbn [NilEmpty.string_of_uint all_chars]; auto. Qed.

Lemma Number_toString_decimal (n : Z) : decimal (JS.Number_toString n).
Proof.
  unfold JS.Number_toString, decimal.
  assert (H : forall d, decimal (NilZero.string_of_uint d)).
  { intros d. unfold decimal, NilZero.string_of_uint.
    destruct d; (split; [|discriminate]); try reflexivity;
      apply (uint_decimal (_ d)). }
  destruct (Z.to_int n) as [d|d]; cbn [NilZero.string_of_int].
  - apply H.
  - destruct (H d) as [Hd _]. split; [|discriminate].
    cbn [all_chars]. now rewrite Hd.
Qed.

Lemma append_not_empty_r (s t : string) : t <> "" -> s ++ t <> "".
Proof. intros Ht. destruct s; [exact Ht | discriminate]. Qed.

Lemma append_not_empty_l (s t : string) : s <> "" -> s ++ t <> "".
Proof. intros Hs. destruct s; [congruence | discriminate]. Qed.

Lemma padStart_decimal (s : string) :
  decimal s -> decimal (JS.padStart 2 "0"%char s).
Proof.
  intros [Hs Hne]. unfold JS.padStart. split.
  - rewrite all_chars_app, Hs, andb_true_r.
    induction (2 - String.length s)%nat as [|k IH]; [reflexivity|].
    cbn [JS.repeat_char all_chars]. exact IH.
  - now apply append_not_empty_r.
Qed.

Lemma dash_decimal (a b : string) :
  decimal a -> decimal b -> decimal (a ++ "-" ++ b).
Proof.
  intros [Ha Hne] [Hb _]. split; [|now apply append_not_empty_l].
  rewrite !all_chars_app, Ha, Hb. reflexivity.
Qed.

Lemma headed_plain (s : string) :
  all_chars not_slash s = true ->
  (exists c r, s = String c r /\ decimal_char c = true) ->
  plain_segment s = true.
Proof.
  intros Hs (c & r & -> & Hc). unfold plain_segment. rewrite Hs.
  assert (Hdot : Ascii.eqb c "." = false).
  { destruct (Ascii.eqb_spec c "."%char) as [->|]; [discriminate Hc | reflexivity]. }
  cbn [String.eqb]. rewrite Hdot. reflexivity.
Qed.

Lemma decimal_headed (s : string) :
  decimal s -> exists c r, s = String c r /\ decimal_char c = true.
Proof.
  intros [Hs Hne]. destruct s as [|c r]; [congruence|].
  cbn [all_chars] in Hs. apply andb_true_iff in Hs as [Hc _]. eauto.
Qed.

Lemma decimal_plain (s : string) : decimal s -> plain_segment s = true.
Proof.
  intros Hs. apply headed_plain; [|now apply decimal_headed].
  destruct Hs as [Hs _].
  exact (all_chars_weaken _ _ s decimal_no_slash Hs).
Qed.

Lemma decimal_log_plain (s : string) :
  decimal s -> plain_segment (s ++ ".log") = true.
Proof.
  intros Hs. apply headed_plain.
  - rewrite all_chars_app.
    destruct Hs as [Hs _].
    rewrite (all_chars_weaken _ _ s decimal_no_slash Hs). reflexivity.
  - destruct (decimal_headed s Hs) as (c & r & -> & Hc).
    exists c, (r ++ ".log"). split; [reflexivity | exact Hc].
Qed.

(** For a plain log directory the daily file is, literally,
    [<logDirectory>/<YYYY>/<YYYY>-<MM>/<YYYY>-<MM>-<DD>.log]. *)
Lemma daily_file_plain (absolute : bool) (segs : list string)
      (year month day : Z) :
  segs <> [] ->
  forallb plain_segment segs = true ->
  let YYYY := JS.Number_toString year in
  let MM := JS.padStart 2 "0"%char (JS.Number_toString month) in
  let DD := JS.padStart 2 "0"%char (JS.Number_toString day) in
  NodePath.join
    [NodePath.join [plain_path absolute segs; YYYY ++ "/" ++ YYYY ++ "-" ++ MM];
     YYYY ++ "-" ++ MM ++ "-" ++ DD ++ ".log"]
  = plain_path absolute segs ++ "/" ++ YYYY ++ "/" ++ YYYY ++ "-" ++ MM
    ++ "/" ++ YYYY ++ "-" ++ MM ++ "-" ++ DD ++ ".log".
Proof.
  intros Hne Hsegs YYYY MM DD.
  assert (HY : decimal YYYY) by apply Number_toString_decimal.
  assert (HM : decimal MM) by apply padStart_decimal, Number_toString_decimal.
  assert (HD : decimal DD) by apply padStart_decimal, Number_toString_decimal.
  assert (HYM : decimal (YYYY ++ "-" ++ MM)) by now apply dash_decimal.
  assert (HYMD : decimal (YYYY ++ "-" ++ MM ++ "-" ++ DD)).
  { rewrite <- (append_assoc YYYY "-" (MM ++ "-" ++ DD)).
    rewrite <- (append_assoc (YYYY ++ "-") MM ("-" ++ DD)).
    rewrite (append_assoc YYYY "-" MM). now apply dash_decimal. }
  assert (Hfile : plain_segment (YYYY ++ "-" ++ MM ++ "-" ++ DD ++ ".log") = true).
  { replace (YYYY ++ "-" ++ MM ++ "-" ++ DD ++ ".log")
      with ((YYYY ++ "-" ++ MM ++ "-" ++ DD) ++ ".log")
      by now rewrite !append_assoc.
    now apply decimal_log_plain. }
  destruct (join_plain absolute segs [YYYY; YYYY ++ "-" ++ MM])
    as [Hjoin Hlit]; try assumption; try discriminate.
  { cbn [forallb]. now rewrite !decimal_plain. }
  change (NodePath.concat_with "/" [YYYY; YYYY ++ "-" ++ MM])
    with (YYYY ++ "/" ++ YYYY ++ "-" ++ MM) in Hjoin, Hlit.
  rewrite Hjoin.
  destruct (join_plain absolute (segs ++ [YYYY; YYYY ++ "-" ++ MM])
              [YYYY ++ "-" ++ MM ++ "-" ++ DD ++ ".log"])
    as [Hjoin' Hlit']; try discriminate.
  { destruct segs; [congruence | discriminate]. }
  { rewrite forallb_app, Hsegs. cbn [forallb]. now rewrite !decimal_plain. }
  { cbn [forallb]. now rewrite Hfile. }
  cbn [NodePath.concat_with] in Hjoin', Hlit'.
  rewrite Hjoin', Hlit', Hlit. now rewrite !append_assoc.
Qed.

(** ** The log pipeline *)

(** C1 fails on the code.  At ERROR and FATAL an admitted call, after its
    [console.log], builds the file line with [messages.join(' ')], and
    [join] throws on a fragment that has no conversion to a string (a
    symbol, an object without [toString]): the call prints its block and
    then raises what the conversion raised, where the claim has it return
    the logger.  [console.log] itself printed the fragment, and the same
    call at any other level returns. *)
Theorem C1_unconvertible_fragment_raises (host : Host) (w : World)
        (this : ref) (self : Instance) (e : Entry) (L g : Level)
        (call : ref -> list JS.Value -> M ref) (messages : list JS.Value)
        (err : Exn) :
  heap w !! this = Some self ->
  globalLogLevel w = key g ->
  invoke host e L = Some call ->
  rank g <= rank L ->
  reaches_sink L = true ->
  JS.join " " messages = JS.Abrupt err ->
  exists w' color bgColor,
    call this messages w = Throws err w'
    /\ console w'
       = (console w ++
          [severity_head L color bgColor
             (toISOString (clock host (clockReads w)))
             (resolve_caller host (stack host (stackCaptures w)))
             (prefix self)
           ++ fragments e self messages ++ [JS.Str JS.LF]])%list.
Proof.
  intros Hthis Hg Hcall Hrank Hsink Hjoin.
  destruct (invoke_spec host e L call this self messages w Hcall Hthis)
    as (color & bgColor & ->).
  assert (Hfrag : JS.join " " (fragments e self messages) = JS.Abrupt err).
  { destruct e; cbn [fragments]; [now apply join_app_abrupt | exact Hjoin]. }
  rewrite (__log_admitted host this self)
    by (try assumption; rewrite Hg, js_lt_key; now apply Z.ltb_ge).
  rewrite to_file_key, Hfrag. cbv zeta.
  destruct L; try discriminate Hsink;
    eexists _, color, bgColor; (split; [reflexivity|]);
    cbn [console set_console]; rewrite console_block_head;
    now rewrite block_head_severity.
Qed.

Lemma C1_unconvertible_fragment_raises_witness :
  exists w' color bgColor,
    error Demo.host 0%nat [JS.Str "boom"; JS.Symbol "s"] (Demo.world None)
    = Throws (TypeError "Cannot convert a Symbol value to a string") w'
    /\ console w'
       = [ [ JS.Str (bgColor ++ color ++ JS.LF ++ "2024-03-07T08:26:40.000Z |");
             JS.Str "     ERROR";
             JS.Str (JS.LF ++ "|---");
             JS.Str "src/main.js:10";
             JS.Str (JS.LF ++ "|---");
             JS.Str "run";
             JS.Str "";
             JS.Str (JS.LF ++ LoggerColors.Reset ++ LoggerColors.Reset);
             JS.Str "boom"; JS.Symbol "s"; JS.Str JS.LF ] ].
Proof.
  exact (C1_unconvertible_fragment_raises Demo.host (Demo.world None) 0%nat
           (Demo.logger None) Shortcut ERROR INFO (error Demo.host)
           [JS.Str "boom"; JS.Symbol "s"]
           (TypeError "Cannot convert a Symbol value to a string")
           eq_refl eq_refl eq_refl ltac:(discriminate) eq_refl eq_refl).
Defined.

(** C2 fails on the code, by the same defect.  An admitted ERROR or FATAL
    call with a fragment that [join] cannot convert raises before
    [__logToFile] is reached: with file logging enabled it writes no
    file and creates no directory, where the claim has every admitted
    ERROR and FATAL call produce a file-sink write. *)
Theorem C2_unconvertible_fragment_not_written (host : Host) (w : World)
        (this : ref) (self : Instance) (e : Entry) (L g : Level)
        (call : ref -> list JS.Value -> M ref) (messages : list JS.Value)
        (err : Exn) :
  heap w !! this = Some self ->
  globalLogLevel w = key g ->
  invoke host e L = Some call ->
  rank g <= rank L ->
  reaches_sink L = true ->
  enableFileLogging w = true ->
  JS.join " " messages = JS.Abrupt err ->
  let outcome := call this messages w in
  files (world_of outcome) = files w
  /\ dirs (world_of outcome) = dirs w
  /\ List.length (console (world_of outcome)) = S (List.length (console w))
  /\ forall a w', outcome <> Returns a w'.
Proof.
  intros Hthis Hg Hcall Hrank Hsink _ Hjoin. cbv zeta.
  destruct (invoke_spec host e L call this self messages w Hcall Hthis)
    as (color & bgColor & ->).
  assert (Hfrag : JS.join " " (fragments e self messages) = JS.Abrupt err).
  { destruct e; cbn [fragments]; [now apply join_app_abrupt | exact Hjoin]. }
  rewrite (__log_admitted host this self)
    by (try assumption; rewrite Hg, js_lt_key; now apply Z.ltb_ge).
  rewrite to_file_key, Hfrag. cbv zeta.
  destruct L; try discriminate Hsink; cbn [world_of files dirs console
    set_console set_stackCaptures set_clockReads];
    (split; [reflexivity|]); (split; [reflexivity|]);
    (split; [rewrite length_app; cbn [List.length]; lia | discriminate]).
Qed.

Lemma C2_unconvertible_fragment_not_written_witness :
  files (world_of (fatal Demo.host 0%nat [JS.Symbol "s"] (Demo.world None)))
  = ∅
  /\ dirs (world_of (fatal Demo.host 0%nat [JS.Symbol "s"] (Demo.world None)))
     = ∅
  /\ List.length
       (console
          (world_of (fatal Demo.host 0%nat [JS.Symbol "s"] (Demo.world None))))
     = 1%nat
  /\ forall a w',
       fatal Demo.host 0%nat [JS.Symbol "s"] (Demo.world None) <> Returns a w'.
Proof.
  exact (C2_unconvertible_fragment_not_written Demo.host (Demo.world None)
           0%nat (Demo.logger None) Shortcut FATAL INFO (fatal Demo.host)
           [JS.Symbol "s"]
           (TypeError "Cannot convert a Symbol value to a string")
           eq_refl eq_refl eq_refl ltac:(discriminate) eq_refl eq_refl
           eq_refl).
Defined.

(** The level filter, for every severity [L], every list of fragments and
    either entry point, on a live logger and with minimum severity [g].
    Below the minimum the call returns the logger and leaves the whole
    world as it was.  Otherwise it makes exactly one [console.log], whose
    arguments are the eight of the head (the level name right-aligned in
    ten columns, the prefix on a line of its own when the logger has a
    non-empty one), the fragments in order and a newline, and changes no
    logger; at every level but ERROR and FATAL it then returns the logger
    without touching files or directories, and at ERROR and FATAL it
    raises what the conversion of a fragment raised, if one did. *)
Theorem level_filter (host : Host) (w : World) (this : ref)
        (self : Instance) (e : Entry) (L g : Level)
        (call : ref -> list JS.Value -> M ref) (messages : list JS.Value) :
  heap w !! this = Some self ->
  globalLogLevel w = key g ->
  invoke host e L = Some call ->
  let outcome := call this messages w in
  let w' := world_of outcome in
  (rank L < rank g -> outcome = Returns this w)
  /\ (rank g <= rank L ->
      (exists color bgColor,
          console w'
          = (console w ++
             [severity_head L color bgColor
                (toISOString (clock host (clockReads w)))
                (resolve_caller host (stack host (stackCaptures w)))
                (prefix self)
              ++ fragments e self messages ++ [JS.Str JS.LF]])%list)
      /\ heap w' = heap w
      /\ (reaches_sink L = false ->
          outcome = Returns this w'
          /\ files w' = files w /\ dirs w' = dirs w)
      /\ (reaches_sink L = true ->
          forall err,
            JS.join " " (fragments e self messages) = JS.Abrupt err ->
            outcome = Throws err w')).
Proof.
  intros Hthis Hg Hcall. cbv zeta.
  destruct (invoke_spec host e L call this self messages w Hcall Hthis)
    as (color & bgColor & ->).
  split; intros Hrank.
  - apply __log_filtered. rewrite Hg, js_lt_key. now apply Z.ltb_lt.
  - assert (Hlt : js_lt (LoggerLevels (key L)) (LoggerLevels (globalLogLevel w))
                  = false)
      by (rewrite Hg, js_lt_key; now apply Z.ltb_ge).
    destruct (__log_admitted_frame host this self (key L)
                (fragments e self messages) color bgColor w Hthis Hlt)
      as (Hc & Hh & _).
    split.
    { exists color, bgColor. rewrite Hc, console_block_head.
      now rewrite block_head_severity. }
    split; [exact Hh|].
    rewrite (__log_admitted host this self) by assumption.
    rewrite to_file_key. cbv zeta.
    split; intros Hsink.
    + replace (match L with ERROR | FATAL => true | _ => false end)
        with false by (destruct L; try reflexivity; discriminate Hsink).
      repeat split; reflexivity.
    + intros err Hjoin.
      replace (match L with ERROR | FATAL => true | _ => false end)
        with true by (destruct L; try reflexivity; discriminate Hsink).
      now rewrite Hjoin.
Qed.

Lemma level_filter_witness :
  debug Demo.host 0%nat [JS.Str "x"] (Demo.world (Some "P"))
  = Returns 0%nat (Demo.world (Some "P"))
  /\ exists color bgColor,
       console (world_of (log Demo.host 0%nat "WARN" [JS.Str "x"]
                            (Demo.world (Some "P"))))
       = [ [ JS.Str (bgColor ++ color ++ JS.LF
                     ++ "2024-03-07T08:26:40.000Z |");
             JS.Str "      WARN";
             JS.Str (JS.LF ++ "|---");
             JS.Str "src/main.js:10";
             JS.Str (JS.LF ++ "|---");
             JS.Str "run";
             JS.Str (JS.LF ++ "|--- P");
             JS.Str (JS.LF ++ LoggerColors.Reset ++ LoggerColors.Reset);
             JS.Str "x"; JS.Str JS.LF ] ].
Proof.
  split.
  - apply (proj1 (level_filter Demo.host (Demo.world (Some "P")) 0%nat
                    (Demo.logger (Some "P")) Shortcut DEBUG INFO
                    (debug Demo.host) [JS.Str "x"]
                    eq_refl eq_refl eq_refl)).
    reflexivity.
  - refine (proj1 (proj2 (level_filter Demo.host (Demo.world (Some "P")) 0%nat
                            (Demo.logger (Some "P")) Generic WARN INFO
                            (fun this => log Demo.host this "WARN")
                            [JS.Str "x"] eq_refl eq_refl eq_refl) _)).
    discriminate.
Defined.

(** The file sink, among the admitted calls, on a live logger and through
    either entry point.  A call at ERROR or FATAL whose fragments [join]
    converts, when file logging is enabled, appends to the file
    [<logDirectory>/<YYYY>/<YYYY>-<MM>/<YYYY>-<MM>-<DD>.log] (built with
    [path.join] from the local date read when the file is written, month
    and day padded to two digits) the line
    ["<ISO-timestamp> | <LEVEL> | <location> | <function>[ | <prefix>] | <space-joined fragments>"]
    followed by a newline, and so changes the files; with file logging
    disabled, or with a fragment that cannot be converted, it writes
    nothing; a call at any other level never touches the files or the
    directories.  When the log directory is a plain path (segments that
    are not empty, ["."] or [".."], no trailing separator) the file name
    is that text character for character. *)
Theorem file_sink_line (host : Host) (w : World) (this : ref)
        (self : Instance) (e : Entry) (L g : Level)
        (call : ref -> list JS.Value -> M ref) (messages : list JS.Value) :
  heap w !! this = Some self ->
  globalLogLevel w = key g ->
  invoke host e L = Some call ->
  rank g <= rank L ->
  let w' := world_of (call this messages w) in
  let timestamp := toISOString (clock host (clockReads w)) in
  let caller := resolve_caller host (stack host (stackCaptures w)) in
  let today := clock host (S (clockReads w)) in
  let YYYY := JS.Number_toString (getFullYear today) in
  let MM := JS.padStart 2 "0"%char (JS.Number_toString (getMonth today + 1)) in
  let DD := JS.padStart 2 "0"%char (JS.Number_toString (getDate today)) in
  let file :=
    NodePath.join
      [NodePath.join [logDirectory w; YYYY ++ "/" ++ YYYY ++ "-" ++ MM];
       YYYY ++ "-" ++ MM ++ "-" ++ DD ++ ".log"] in
  match L with
  | ERROR | FATAL =>
      match JS.join " " (fragments e self messages) with
      | JS.Normal joined =>
          let line :=
            timestamp ++ " | " ++ key L ++ " | " ++ fileName caller ++ " | "
            ++ method caller ++ prefix_field (prefix self) ++ " | "
            ++ joined in
          if enableFileLogging w then
            files w'
            = <[file := default "" (files w !! file) ++ line ++ JS.LF]>
                (files w)
            /\ files w' <> files w
          else files w' = files w /\ dirs w' = dirs w
      | JS.Abrupt _ => files w' = files w /\ dirs w' = dirs w
      end
  | _ => files w' = files w /\ dirs w' = dirs w
  end
  /\ (forall absolute segs,
         segs <> [] -> forallb plain_segment segs = true ->
         logDirectory w = plain_path absolute segs ->
         file = logDirectory w ++ "/" ++ YYYY ++ "/" ++ YYYY ++ "-" ++ MM
                ++ "/" ++ YYYY ++ "-" ++ MM ++ "-" ++ DD ++ ".log").
Proof.
  intros Hthis Hg Hcall Hrank. cbv zeta. split.
  2:{ intros absolute segs Hne Hsegs Hdir. rewrite Hdir.
      now apply daily_file_plain. }
  destruct (invoke_spec host e L call this self messages w Hcall Hthis)
    as (color & bgColor & ->).
  rewrite (__log_world host this self)
    by (try assumption; rewrite Hg, js_lt_key; now apply Z.ltb_ge).
  rewrite to_file_key. cbv zeta.
  destruct L; try (split; reflexivity);
    (destruct (JS.join " " (fragments e self messages)) as [joined|err];
     [|split; reflexivity]);
    rewrite file_line_fields;
    match goal with
    | |- context [__logToFile host ?m _] => set (line := m)
    end;
    rewrite __logToFile_spec; cbn [world_of enableFileLogging set_console
      set_stackCaptures set_clockReads clockReads logDirectory files dirs];
    destruct (enableFileLogging w); cbn [files dirs set_files set_dirs
      set_clockReads set_console set_stackCaptures];
    try (split; reflexivity);
    (split; [reflexivity|]);
    intros Heq;
    match type of Heq with
    | <[?f := _]> _ = _ =>
        apply (f_equal (fun m => m !! f)) in Heq;
        rewrite lookup_insert_eq in Heq;
        destruct (files w !! f) as [old|] eqn:Hold; cbn [default] in Heq;
        [ injection Heq as Heq; revert Heq; apply append_grows
        | discriminate Heq ]
    end;
    unfold line; clear; intros H;
    match type of H with
    | ?a ++ _ = _ => destruct a; discriminate H
    end.
Qed.

(** The spec's example: an ERROR logged on 2024-03-07 with log directory
    [/tmp/logs] is written to [/tmp/logs/2024/2024-03/2024-03-07.log]. *)
Lemma file_sink_line_witness :
  files (world_of (error Demo.host 0%nat [JS.Str "boom"; JS.Other "42"]
                     (Demo.world (Some "P"))))
  = <[ "/tmp/logs/2024/2024-03/2024-03-07.log" :=
         "2024-03-07T08:26:40.000Z | ERROR | src/main.js:10 | run | P | boom 42"
         ++ JS.LF ]> ∅
  /\ files (world_of (error Demo.host 0%nat [JS.Str "boom"; JS.Other "42"]
                        (Demo.world (Some "P"))))
     <> files (Demo.world (Some "P")).
Proof.
  exact (proj1 (file_sink_line Demo.host (Demo.world (Some "P")) 0%nat
                  (Demo.logger (Some "P")) Shortcut ERROR INFO
                  (error Demo.host) [JS.Str "boom"; JS.Other "42"]
                  eq_refl eq_refl eq_refl ltac:(discriminate))).
Defined.

(** ** Unrecognised level names *)






(** ** The minimum severity *)

(** [setLogLevel] with a severity name sets the minimum severity and
    changes nothing else. *)
Theorem setLogLevel_recognised (l : Level) (w : World) :
  setLogLevel (key l) w = Returns tt (set_globalLogLevel (key l) w).
Proof. unfold setLogLevel. now rewrite LoggerLevels_key. Qed.



(** The guard of [setLogLevel] is a lookup in the enum object, and the
    lookup also finds what the object inherits: the name of a member of
    [Object.prototype] is no severity name, yet it is accepted and
    becomes the minimum severity.  No rank is below such a minimum, so
    that afterwards a call at any severity, through either entry point,
    is admitted and printed. *)
Theorem setLogLevel_inherited_name (host : Host) (w : World) (this : ref)
        (self : Instance) (e : Entry) (L : Level)
        (call : ref -> list JS.Value -> M ref) (messages : list JS.Value)
        (N text : string) :
  JS.Object_prototype N = Some text ->
  heap w !! this = Some self ->
  invoke host e L = Some call ->
  (forall l, key l <> N)
  /\ setLogLevel N w = Returns tt (set_globalLogLevel N w)
  /\ exists color bgColor,
       console (world_of (call this messages (set_globalLogLevel N w)))
       = (console w ++
          [severity_head L color bgColor
             (toISOString (clock host (clockReads w)))
             (resolve_caller host (stack host (stackCaptures w)))
             (prefix self)
           ++ fragments e self messages ++ [JS.Str JS.LF]])%list.
Proof.
  intros Hproto Hthis Hcall.
  assert (Hin : In N ["__defineGetter__"; "__defineSetter__"; "hasOwnProperty";
                      "__lookupGetter__"; "__lookupSetter__"; "isPrototypeOf";
                      "propertyIsEnumerable"; "toString"; "valueOf";
                      "toLocaleString"; "constructor"; "__proto__"]).
  { unfold JS.Object_prototype in Hproto. cbn [existsb] in Hproto.
    repeat match type of Hproto with
           | context [String.eqb N ?k] =>
               destruct (String.eqb_spec N k) as [->|_];
               [cbn; tauto | cbn [orb] in Hproto]
           end.
    discriminate Hproto. }
  assert (Hlook : LoggerLevels N = Inherited text).
  { cbn [In] in Hin.
    repeat destruct Hin as [<- | Hin]; try contradiction;
      vm_compute in Hproto; injection Hproto as <-; reflexivity. }
  split.
  { intros l Hl. rewrite <- Hl, LoggerLevels_key in Hlook. discriminate. }
  split; [unfold setLogLevel; now rewrite Hlook|].
  destruct (invoke_spec host e L call this self messages
              (set_globalLogLevel N w) Hcall Hthis)
    as (color & bgColor & ->).
  exists color, bgColor.
  assert (Hlt : js_lt (LoggerLevels (key L))
                  (LoggerLevels (globalLogLevel (set_globalLogLevel N w)))
                = false)
    by (cbn [globalLogLevel set_globalLogLevel];
        now rewrite Hlook, LoggerLevels_key).
  destruct (__log_admitted_frame host this self (key L)
              (fragments e self messages) color bgColor
              (set_globalLogLevel N w) Hthis Hlt) as (Hc & _).
  rewrite Hc, console_block_head. now rewrite block_head_severity.
Qed.

Lemma setLogLevel_inherited_name_witness :
  (forall l, key l <> "toString")
  /\ setLogLevel "toString" (Demo.world None)
     = Returns tt (set_globalLogLevel "toString" (Demo.world None))
  /\ exists color bgColor,
       console (world_of (silly Demo.host 0%nat [JS.Str "x"]
                            (set_globalLogLevel "toString" (Demo.world None))))
       = [ [ JS.Str (bgColor ++ color ++ JS.LF
                     ++ "2024-03-07T08:26:40.000Z |");
             JS.Str "     SILLY";
             JS.Str (JS.LF ++ "|---");
             JS.Str "src/main.js:10";
             JS.Str (JS.LF ++ "|---");
             JS.Str "run";
             JS.Str "";
             JS.Str (JS.LF ++ LoggerColors.Reset ++ LoggerColors.Reset);
             JS.Str "x"; JS.Str JS.LF ] ].
Proof.
  exact (setLogLevel_inherited_name Demo.host (Demo.world None) 0%nat
           (Demo.logger None) Shortcut SILLY (silly Demo.host) [JS.Str "x"]
           "toString" "function toString() { [native code] }"
           eq_refl eq_refl eq_refl).
Defined.

(** C4 fails on the code: the decimal text of a rank is no severity
    name, yet [LoggerLevels] has it as a key (the enum's reverse
    mapping), so [setLogLevel] accepts it and overwrites the minimum
    severity.  With minimum INFO a [debug] call is filtered; after
    [setLogLevel("0")] the same call is written to the console. *)
Theorem C4_setLogLevel_accepts_rank_key :
  (forall l l', JS.Number_toString (rank l) <> key l')
  /\ (forall l w,
         setLogLevel (JS.Number_toString (rank l)) w
         = Returns tt (set_globalLogLevel (JS.Number_toString (rank l)) w))
  /\ debug Demo.host 0%nat [JS.Str "x"] (Demo.world None)
     = Returns 0%nat (Demo.world None)
  /\ exists w1 w2,
       setLogLevel "0" (Demo.world None) = Returns tt w1
       /\ globalLogLevel w1 = "0"
       /\ debug Demo.host 0%nat [JS.Str "x"] w1 = Returns 0%nat w2
       /\ List.length (console w2) = 1%nat.
Proof.
  split; [intros l l'; destruct l, l'; discriminate|].
  split; [intros l w; destruct l; reflexivity|].
  split; [reflexivity|].
  eexists _, _. split; [reflexivity|]. split; [reflexivity|].
  split; vm_compute; reflexivity.
Qed.

(** ** Child loggers *)

(** C5 fails on the code: on a logger whose prefix is ["A"],
    [child(undefined)] builds the child's prefix with a template literal
    and gives ["A -> undefined"]. *)
Theorem C5_child_without_prefix (host : Host) (w : World) (this : ref)
        (self : Instance) (tr : bool) :
  heap w !! this = Some self ->
  prefix self = Some "A" ->
  exists w',
    child host this None tr w = Returns (List.length (heap w)) w'
    /\ prefix <$> heap w' !! List.length (heap w) = Some (Some "A -> undefined").
Proof.
  intros Hthis Hprefix. rewrite (child_spec host this self) by assumption.
  eexists. split; [reflexivity|]. cbn [heap set_heap].
  rewrite list_lookup_middle by reflexivity. cbn [fmap option_fmap option_map prefix].
  now rewrite Hprefix.
Qed.

Lemma C5_child_without_prefix_witness :
  exists w',
    child Demo.host 0%nat None false (Demo.world (Some "A")) = Returns 1%nat w'
    /\ prefix <$> heap w' !! 1%nat = Some (Some "A -> undefined").
Proof.
  exact (C5_child_without_prefix Demo.host (Demo.world (Some "A")) 0%nat
           (Demo.logger (Some "A")) false eq_refl eq_refl).
Defined.

(** [root = new Logger(p); a = root.child(pA, true); b = a.child(pB, true)]
    from any world: the three objects and the two links. *)
Lemma family_spec (host : Host) (w0 : World) (p : option string) :
  let k := stackCaptures w0 in
  let n := List.length (heap w0) in
  let at_ i := resolve_caller host (stack host i) in
  let rootObj :=
    {| timeMap := ∅; prefix := p; creationInfo := at_ k;
       parentTrace := None |} in
  let tA :=
    {| parentPrefix := p; parentCreationInfo := at_ k;
       childCreationInfo := at_ (S k); inheritedTrace := None |} in
  let pA :=
    if JS.truthy p then Some (JS.template p ++ " -> " ++ "A") else Some "A" in
  let aObj :=
    {| timeMap := ∅; prefix := pA; creationInfo := at_ (S (S k));
       parentTrace := Some tA |} in
  let tB :=
    {| parentPrefix := pA; parentCreationInfo := at_ (S (S k));
       childCreationInfo := at_ (S (S (S k))); inheritedTrace := Some tA |} in
  let bObj :=
    {| timeMap := ∅;
       prefix :=
         if JS.truthy pA then Some (JS.template pA ++ " -> " ++ "B")
         else Some "B";
       creationInfo := at_ (S (S (S (S k))));
       parentTrace := Some tB |} in
  family host p w0
  = Returns (n, S n, S (S n))
      (set_heap (heap w0 ++ [rootObj; aObj; bObj])
         (set_stackCaptures (S (S (S (S (S k))))) w0)).
Proof.
  intros k n at_ rootObj tA pA aObj tB bObj.
  unfold family. 
  cbv [mbind M_bind]. rewrite new_Logger_spec. fold k n at_ rootObj.
  set (w1 := set_heap _ _).
  assert (H1 : heap w1 !! n = Some rootObj)
    by (unfold w1; cbn [heap set_heap]; now apply list_lookup_middle).
  rewrite (child_spec host n rootObj _ _ w1 H1).
  set (w2 := set_heap _ _).
  assert (H2 : heap w2 !! S n = Some aObj).
  { unfold w2, w1. cbn [heap set_heap set_stackCaptures stackCaptures].
    apply list_lookup_middle. rewrite length_app. cbn [List.length]. lia. }
  assert (Hlen : List.length (heap w1) = S n).
  { unfold w1. cbn [heap set_heap]. rewrite length_app. cbn [List.length].
    fold n. lia. }
  rewrite Hlen.
  rewrite (child_spec host (S n) aObj _ _ w2 H2).
  assert (Hlen2 : List.length (heap w2) = S (S n)).
  { unfold w2. cbn [heap set_heap set_stackCaptures]. rewrite length_app, Hlen.
    cbn [List.length]. lia. }
  rewrite Hlen2. cbv [mret M_ret]. f_equal.
  unfold w2, w1. cbn [heap set_heap set_stackCaptures stackCaptures].
  rewrite <- !app_assoc. reflexivity.
Qed.

(** C6. On a logger with a trace link, the generic [log] renders one line
    per link of the chain, the oldest ancestor's link first, each
    ["Trace: Parent created at <parentLocation>, Child created at <childLocation>"],
    and appends them to the messages before it formats: the call is
    [__log] on the extended list, and an admitted call prints the
    fragments followed by these lines.  In particular, for
    [b = root.child("A", true).child("B", true)], [log] on [b] renders two
    lines: root's creation site with the site of [child("A")], then A's
    creation site with the site of [child("B")]. *)
Theorem C6_trace_lines (host : Host) (w : World) (this : ref)
        (self : Instance) (t : ParentTrace) (level : string)
        (messages : list JS.Value) :
  heap w !! this = Some self ->
  parentTrace self = Some t ->
  let render := fun l : ParentTrace =>
    JS.Str ("Trace: Parent created at " ++ fileName (parentCreationInfo l)
            ++ ", Child created at " ++ fileName (childCreationInfo l)) in
  log host this level messages w
  = __log host this level (messages ++ map render (rev (links t)))
      LoggerColors.Reset LoggerColors.Reset w
  /\ (forall L g,
         level = key L -> globalLogLevel w = key g -> rank g <= rank L ->
         let outcome := log host this level messages w in
         exists head,
           console (world_of outcome)
           = (console w
              ++ [head ++ messages ++ map render (rev (links t))
                  ++ [JS.Str JS.LF]])%list
           /\ (reaches_sink L = false \/ converts messages ->
               outcome = Returns this (world_of outcome)))
  /\ (forall (w0 : World) (p : option string),
         exists root a b w3 rootObj aObj,
           family host p w0 = Returns (root, a, b) w3
           /\ heap w3 !! root = Some rootObj
           /\ heap w3 !! a = Some aObj
           /\ log host b level messages w3
              = __log host b level
                  (messages ++
                   [ JS.Str ("Trace: Parent created at "
                             ++ fileName (creationInfo rootObj)
                             ++ ", Child created at "
                             ++ fileName
                                  (resolve_caller host
                                     (stack host (1 + stackCaptures w0))));
                     JS.Str ("Trace: Parent created at "
                             ++ fileName (creationInfo aObj)
                             ++ ", Child created at "
                             ++ fileName
                                  (resolve_caller host
                                     (stack host (3 + stackCaptures w0)))) ])
                  LoggerColors.Reset LoggerColors.Reset w3).
Proof.
  intros Hthis Htrace render.
  assert (Hlog : forall this' self' t' w',
             heap w' !! this' = Some self' -> parentTrace self' = Some t' ->
             log host this' level messages w'
             = __log host this' level (messages ++ map render (rev (links t')))
                 LoggerColors.Reset LoggerColors.Reset w').
  { intros this' self' t' w' H1 H2. unfold log. run. rewrite H1, H2.
    now rewrite traceMessages_links, <- map_rev, map_map. }
  split; [now apply (Hlog this self)|]. split.
  - intros L g -> Hg Hrank. cbv zeta.
    rewrite (Hlog this self t w Hthis Htrace).
    assert (Hlt : js_lt (LoggerLevels (key L)) (LoggerLevels (globalLogLevel w))
                  = false)
      by (rewrite Hg, js_lt_key; now apply Z.ltb_ge).
    destruct (__log_admitted_frame host this self (key L)
                (messages ++ map render (rev (links t)))
                LoggerColors.Reset LoggerColors.Reset w Hthis Hlt)
      as (Hc & _).
    eexists. split.
    + rewrite Hc, console_block_head, <- app_assoc. reflexivity.
    + intros Hok. apply (__log_outcome host this self); [assumption|].
      rewrite to_file_key. destruct Hok as [Hsink | Hconv]; [now left|].
      right. pose proof (converts_fragments Generic self messages Hconv) as H.
      cbn [fragments] in H. rewrite Htrace in H. exact H.
  - intros w0 p. rewrite family_spec.
    eexists _, _, _, _, _, _. split; [reflexivity|]. cbn [heap set_heap].
    split; [now apply list_lookup_middle|].
    split.
    { rewrite (lookup_app_r (heap w0)) by lia.
      replace (S (List.length (heap w0)) - List.length (heap w0))%nat
        with 1%nat by lia. reflexivity. }
    unfold log. run. rewrite (lookup_app_r (heap w0)) by lia.
    replace (S (S (List.length (heap w0))) - List.length (heap w0))%nat
      with 2%nat by lia.
    cbn [lookup list_lookup parentTrace traceMessages inheritedTrace rev map
         app trace_line parentCreationInfo childCreationInfo creationInfo
         Nat.add].
    reflexivity.
Qed.

Lemma C6_trace_lines_witness :
  log Demo.host 2%nat "INFO" [JS.Str "hello"] Demo.traced
  = __log Demo.host 2%nat "INFO"
      [ JS.Str "hello";
        JS.Str "Trace: Parent created at src/main.js:10, Child created at src/main.js:11";
        JS.Str "Trace: Parent created at src/main.js:12, Child created at src/main.js:13" ]
      LoggerColors.Reset LoggerColors.Reset Demo.traced.
Proof.
  exact (proj1 (C6_trace_lines Demo.host Demo.traced 2%nat Demo.traced_b
                  (default (Build_ParentTrace None Demo.here Demo.here None)
                     (parentTrace Demo.traced_b))
                  "INFO" [JS.Str "hello"] eq_refl eq_refl)).
Defined.

(** One step down a line of descent: the child's chain is one link
    longer than the parent's when the edge enables the trace, and empty
    otherwise. *)
Lemma descend_chain (host : Host) (edges : list (option string * bool)) :
  forall (this : ref) (self : Instance) (w : World),
    heap w !! this = Some self ->
    exists r w' obj,
      descend host this edges w = Returns r w'
      /\ heap w' !! r = Some obj
      /\ List.length (chain (parentTrace obj))
         = fold_left (fun n (tr : bool) => if tr then S n else O)
                     (map snd edges)
                     (List.length (chain (parentTrace self))).
Proof.
  induction edges as [|[p tr] rest IH]; intros this self w Hthis.
  - exists this, w, self. repeat split; assumption.
  - cbn [descend]. cbv [mbind M_bind].
    rewrite (child_spec host this self) by assumption.
    set (w1 := set_heap _ _).
    assert (H1 : exists c, heap w1 !! List.length (heap w) = Some c
                           /\ List.length (chain (parentTrace c))
                              = if tr then S (List.length (chain (parentTrace self)))
                                else O).
    { eexists. split.
      - unfold w1. cbn [heap set_heap]. now apply list_lookup_middle.
      - destruct tr; reflexivity. }
    destruct H1 as (c & Hc & Hlen).
    destruct (IH _ c w1 Hc) as (r & w' & obj & Hrun & Hobj & Hchain).
    exists r, w', obj. repeat split; try assumption.
    cbn [map snd fold_left]. now rewrite <- Hlen.
Qed.

Lemma fold_flags_leading (flags : list bool) :
  fold_left (fun n (tr : bool) => if tr then S n else O) flags O
  = leading (rev flags).
Proof.
  induction flags as [|b flags IH] using rev_ind; [reflexivity|].
  rewrite fold_left_app, rev_app_distr. cbn [fold_left rev app leading].
  destruct b; [now rewrite IH | reflexivity].
Qed.

Lemma links_last (t : ParentTrace) :
  inheritedTrace <$> last (links t) = Some None.
Proof.
  induction t as [pp pci cci | pp pci cci t IH] using ParentTrace_induction.
  - reflexivity.
  - cbn [links inheritedTrace]. rewrite last_cons.
    destruct (last (links t)) as [l|] eqn:E; [exact IH | discriminate IH].
Qed.

(** C7. On a live logger [P]: [P.child(prefix, false)] yields a child
    without a trace link, whatever [P]'s own link is; [P.child(prefix,
    true)] yields a child whose link records [P]'s prefix, [P]'s creation
    site, the site captured by this call of [child], and [P]'s link as the
    inherited one.  So for a logger reached from [new Logger(p0)] through
    any line of [child] calls, the chain is as long as the run of
    trace-enabled edges that ends at the logger; and the traversal that
    renders a chain visits each link once and stops at the link that
    inherits none. *)
Theorem C7_trace_per_edge (host : Host) (w : World) (this : ref)
        (self : Instance) (p : option string) :
  heap w !! this = Some self ->
  (exists w' c,
      child host this p false w = Returns (List.length (heap w)) w'
      /\ heap w' !! List.length (heap w) = Some c
      /\ parentTrace c = None)
  /\ (exists w' c t,
         child host this p true w = Returns (List.length (heap w)) w'
         /\ heap w' !! List.length (heap w) = Some c
         /\ parentTrace c = Some t
         /\ parentPrefix t = prefix self
         /\ parentCreationInfo t = creationInfo self
         /\ childCreationInfo t
            = resolve_caller host (stack host (stackCaptures w))
         /\ inheritedTrace t = parentTrace self)
  /\ (forall (edges : list (option string * bool)) (p0 : option string)
             (w0 : World),
         exists r w' obj,
           (root ← new_Logger host p0; descend host root edges) w0
           = Returns r w'
           /\ heap w' !! r = Some obj
           /\ List.length (chain (parentTrace obj))
              = leading (rev (map snd edges)))
  /\ (forall t : ParentTrace,
         List.length (traceMessages t) = List.length (links t)
         /\ inheritedTrace <$> last (links t) = Some None).
Proof.
  intros Hthis. split; [|split; [|split]].
  - rewrite (child_spec host this self) by assumption.
    eexists _, _. split; [reflexivity|]. cbn [heap set_heap].
    split; [now apply list_lookup_middle | reflexivity].
  - rewrite (child_spec host this self) by assumption.
    eexists _, _, _. split; [reflexivity|]. cbn [heap set_heap].
    split; [now apply list_lookup_middle|]. repeat split; reflexivity.
  - intros edges p0 w0. cbv [mbind M_bind]. rewrite new_Logger_spec.
    set (w1 := set_heap _ _).
    set (rootObj := {| timeMap := ∅; prefix := p0;
                       creationInfo :=
                         resolve_caller host (stack host (stackCaptures w0));
                       parentTrace := None |}).
    assert (H1 : heap w1 !! List.length (heap w0) = Some rootObj)
      by (unfold w1; cbn [heap set_heap]; now apply list_lookup_middle).
    destruct (descend_chain host edges _ rootObj w1 H1)
      as (r & w' & obj & Hrun & Hobj & Hchain).
    exists r, w', obj. repeat split; try assumption.
    rewrite Hchain. cbn [rootObj parentTrace chain List.length].
    apply fold_flags_leading.
  - intros t. split; [|apply links_last].
    now rewrite traceMessages_links, length_map.
Qed.

Lemma C7_trace_per_edge_witness :
  exists w' c,
    child Demo.host 2%nat (Some "C") false Demo.traced = Returns 3%nat w'
    /\ heap w' !! 3%nat = Some c
    /\ parentTrace c = None.
Proof.
  exact (proj1 (C7_trace_per_edge Demo.host Demo.traced 2%nat Demo.traced_b
                  (Some "C") eq_refl)).
Defined.

(** C9. [P.child(prefix, trace)] on a live logger [P] leaves [P] as it
    was (prefix, creation site, trace link and timer map), and every
    other logger too; the child is a new object, distinct from [P], with
    an empty timer map of its own; nothing is printed or written and the
    configuration is unchanged. *)
Theorem C9_child_frame (host : Host) (w : World) (this : ref)
        (self : Instance) (p : option string) (tr : bool) :
  heap w !! this = Some self ->
  exists c w' obj,
    child host this p tr w = Returns c w'
    /\ c <> this
    /\ heap w !! c = None
    /\ heap w' !! this = Some self
    /\ heap w' !! c = Some obj
    /\ timeMap obj = ∅
    /\ (forall r o, heap w !! r = Some o -> heap w' !! r = Some o)
    /\ console w' = console w /\ files w' = files w /\ dirs w' = dirs w
    /\ globalLogLevel w' = globalLogLevel w
    /\ logDirectory w' = logDirectory w
    /\ enableFileLogging w' = enableFileLogging w.
Proof.
  intros Hthis. rewrite (child_spec host this self) by assumption.
  eexists _, _, _. split; [reflexivity|]. cbn [heap set_heap].
  pose proof (lookup_lt_Some _ _ _ Hthis) as Hlt.
  split; [lia|].
  split; [apply lookup_ge_None; lia|].
  split; [now apply lookup_app_l_Some|].
  split; [now apply list_lookup_middle|].
  split; [reflexivity|].
  split; [intros r o Hr; now apply lookup_app_l_Some|].
  repeat split; reflexivity.
Qed.

Lemma C9_child_frame_witness :
  exists c w' obj,
    child Demo.host 0%nat (Some "B") true (Demo.world (Some "A"))
    = Returns c w'
    /\ c <> 0%nat
    /\ heap (Demo.world (Some "A")) !! c = None
    /\ heap w' !! 0%nat = Some (Demo.logger (Some "A"))
    /\ heap w' !! c = Some obj
    /\ timeMap obj = ∅
    /\ (forall r o, heap (Demo.world (Some "A")) !! r = Some o ->
                    heap w' !! r = Some o)
    /\ console w' = console (Demo.world (Some "A"))
    /\ files w' = files (Demo.world (Some "A"))
    /\ dirs w' = dirs (Demo.world (Some "A"))
    /\ globalLogLevel w' = globalLogLevel (Demo.world (Some "A"))
    /\ logDirectory w' = logDirectory (Demo.world (Some "A"))
    /\ enableFileLogging w' = enableFileLogging (Demo.world (Some "A")).
Proof.
  exact (C9_child_frame Demo.host (Demo.world (Some "A")) 0%nat
           (Demo.logger (Some "A")) (Some "B") true eq_refl).
Defined.

(** ** Timers *)

Lemma Object_prototype_proto (label : string) :
  JS.Object_prototype label = None -> label <> "__proto__".
Proof. intros H ->. discriminate H. Qed.

Lemma timeMap_set_insert (label : string) (v : Z) (m : gmap string Z) :
  label <> "__proto__" \/ is_Some (m !! label) ->
  timeMap_set label v m = <[label := v]> m.
Proof.
  intros H. unfold timeMap_set.
  destruct (m !! label) as [t|]; [reflexivity|].
  destruct H as [H | [t H]]; [|discriminate].
  destruct (String.eqb_spec label "__proto__"); [contradiction | reflexivity].
Qed.

(** The text of a number that is not negative does not start with the
    minus sign. *)
Lemma Number_toString_nonneg (n : Z) (rest : string) :
  0 <= n -> JS.Number_toString n <> String "-"%char rest.
Proof.
  intros Hn. unfold JS.Number_toString.
  destruct n as [|p|p]; [discriminate| |lia].
  cbn [Z.to_int NilZero.string_of_int].
  destruct (Pos.to_uint p); discriminate.
Qed.

(** C8, as stated, fails: the elapsed time is the difference of two
    readings of the wall clock.  With a clock that is set back by five
    milliseconds between [timeStart("x")] and [timeEnd("x")], the start is
    recorded and [timeEnd] logs ["x: -5ms"], which is no line with a
    non-negative number of milliseconds.  It fails as well on a label
    that the timer map inherits: with no start recorded under
    ["constructor"], [timeEnd("constructor")] logs ["constructor: NaNms"]
    and not the sentinel. *)
Lemma C8_counterexample :
  (exists w1 w2,
      timeStart Demo.back_host 0%nat "x" (Demo.world None) = Returns 0%nat w1
      /\ timeMap <$> heap w1 !! 0%nat = Some {[ "x" := 1709800000005 ]}
      /\ timeEnd Demo.back_host 0%nat "x" w1 = Returns 0%nat w2
      /\ console w2
         = [ block_head "TIME" LoggerColors.FgGreen LoggerColors.BgBlack
               "2024-03-07T08:26:40.000Z"
               {| fileName := "src/main.js:10"; method := "run" |} None
             ++ [JS.Str "x: -5ms"; JS.Str JS.LF] ]%list
      /\ forall elapsed,
           0 <= elapsed ->
           "x: " ++ JS.Number_toString elapsed ++ "ms" <> "x: -5ms")
  /\ exists w3,
       timeMap (Demo.logger None) !! "constructor" = None
       /\ timeEnd Demo.host 0%nat "constructor" (Demo.world None)
          = Returns 0%nat w3
       /\ console w3
          = [ block_head "TIME" LoggerColors.FgGreen LoggerColors.BgBlack
                "2024-03-07T08:26:40.000Z"
                {| fileName := "src/main.js:10"; method := "run" |} None
              ++ [JS.Str "constructor: NaNms"; JS.Str JS.LF] ]%list.
Proof.
  split.
  2:{ eexists. split; [reflexivity|]. split; vm_compute; reflexivity. }
  eexists _, _. split; [vm_compute; reflexivity|].
  split; [vm_compute; reflexivity|].
  split; [vm_compute; reflexivity|].
  split; [vm_compute; reflexivity|].
  intros elapsed Hpos H.
  change ("x: " ++ JS.Number_toString elapsed ++ "ms")
    with (String "x" (String ":" (String " "
            (JS.Number_toString elapsed ++ "ms")))) in H.
  injection H as H.
  destruct (JS.Number_toString elapsed) as [|c rest] eqn:E; [discriminate H|].
  rewrite append_cons in H. injection H as -> _.
  exact (Number_toString_nonneg elapsed rest Hpos E).
Qed.

(** C8, amended. On a live logger, with a recognised minimum severity and
    a label [L] that is not the name of a member of [Object.prototype].
    [timeStart(L)] stores the clock's reading under [L], whatever was
    stored there before, prints nothing and returns the logger.
    [timeEnd(L)] with a non-zero start recorded logs, at level TIME,
    ["<L>: <elapsed>ms"], the elapsed time being the clock's reading minus
    the recorded start, removes [L] and returns the logger, so that a
    second [timeEnd(L)] logs ["<L>: -1ms"]; [timeEnd(L)] with nothing
    recorded logs ["<L>: -1ms"], changes no logger, does not throw and
    returns the logger.  A TIME-level line passes the level filter like
    any other call ([TIME_line]). *)
Theorem C8_timers (host : Host) (w : World) (this : ref) (self : Instance)
        (label : string) (g : Level) :
  heap w !! this = Some self ->
  globalLogLevel w = key g ->
  JS.Object_prototype label = None ->
  let now := getTime (clock host (clockReads w)) in
  (exists w',
      timeStart host this label w = Returns this w'
      /\ timeMap <$> heap w' !! this = Some (<[label := now]> (timeMap self))
      /\ (<[label := now]> (timeMap self)) !! label = Some now
      /\ console w' = console w /\ files w' = files w)
  /\ (forall t0,
         timeMap self !! label = Some t0 -> t0 <> 0 ->
         exists w',
           timeEnd host this label w = Returns this w'
           /\ TIME_line g w w'
                (label ++ ": " ++ JS.Number_toString (now - t0) ++ "ms")
           /\ timeMap <$> heap w' !! this = Some (delete label (timeMap self))
           /\ delete label (timeMap self) !! label = None
           /\ exists w'',
                timeEnd host this label w' = Returns this w''
                /\ TIME_line g w' w'' (label ++ ": -1ms"))
  /\ (timeMap self !! label = None ->
      exists w',
        timeEnd host this label w = Returns this w'
        /\ TIME_line g w w' (label ++ ": -1ms")
        /\ heap w' = heap w).
Proof.
  intros Hthis Hg Hproto now.
  pose proof (lookup_lt_Some _ _ _ Hthis) as Hlt.
  split; [|split].
  - rewrite (timeStart_spec host this self) by assumption.
    eexists. split; [reflexivity|]. cbn [heap set_heap console files
      set_clockReads].
    rewrite list_lookup_insert_eq by assumption.
    cbn [fmap option_fmap option_map set_timeMap timeMap].
    rewrite timeMap_set_insert by (left; now apply Object_prototype_proto).
    split; [reflexivity|]. split; [apply lookup_insert_eq|].
    split; reflexivity.
  - intros t0 Ht0 Hnz.
    destruct (timeEnd_running host this self label t0 g w Hthis Hg Ht0 Hnz)
      as (w' & Hrun & Hheap & Hlvl & Hline).
    exists w'. split; [exact Hrun|]. split; [exact Hline|].
    assert (Hself' : heap w' !! this = Some (set_timeMap (delete label) self))
      by (rewrite Hheap; now apply list_lookup_insert_eq).
    split; [now rewrite Hself'|].
    split; [apply lookup_delete_eq|].
    destruct (timeEnd_idle host this (set_timeMap (delete label) self) label g
                w' Hself')
      as (w'' & Hrun' & _ & _ & Hline').
    + now rewrite Hlvl.
    + apply lookup_delete_eq.
    + exact Hproto.
    + exists w''. split; assumption.
  - intros Hnone.
    destruct (timeEnd_idle host this self label g w Hthis Hg Hnone Hproto)
      as (w' & Hrun & Hheap & _ & Hline).
    exists w'. split; [exact Hrun|]. split; [exact Hline | exact Hheap].
Qed.

Lemma C8_timers_witness :
  exists w',
    timeEnd Demo.host 0%nat "x" Demo.timed = Returns 0%nat w'
    /\ TIME_line INFO Demo.timed w' "x: 1ms"
    /\ timeMap <$> heap w' !! 0%nat
       = Some (delete "x" (timeMap Demo.timed_logger))
    /\ delete "x" (timeMap Demo.timed_logger) !! "x" = None
    /\ exists w'',
         timeEnd Demo.host 0%nat "x" w' = Returns 0%nat w''
         /\ TIME_line INFO w' w'' "x: -1ms".
Proof.
  refine (proj1 (proj2 (C8_timers Demo.host Demo.timed 0%nat Demo.timed_logger
                          "x" INFO eq_refl eq_refl eq_refl))
                1709800000000 eq_refl _); discriminate.
Defined.

(** ** The empty prefix *)

(** C10. A logger whose prefix is the empty string logs like one without
    a prefix: in the console block of an admitted call the prefix
    argument is the empty string (no ["\n|--- <prefix>"] segment), and
    the line written for ERROR and FATAL has no [" | <prefix>"] field;
    and [child(p)] on such a logger yields a child whose prefix is [p]
    itself, without [" -> "]. *)
Theorem C10_empty_prefix (host : Host) (w : World) (this : ref)
        (self : Instance) (e : Entry) (L g : Level)
        (call : ref -> list JS.Value -> M ref) (messages : list JS.Value)
        (p : option string) (tr : bool) :
  heap w !! this = Some self ->
  prefix self = Some "" ->
  globalLogLevel w = key g ->
  invoke host e L = Some call ->
  rank g <= rank L ->
  let timestamp := toISOString (clock host (clockReads w)) in
  let caller := resolve_caller host (stack host (stackCaptures w)) in
  let outcome := call this messages w in
  let w' := world_of outcome in
  (exists color bgColor,
      (reaches_sink L = false \/ converts (fragments e self messages) ->
       outcome = Returns this w')
      /\ console w'
         = (console w ++
            [ [ JS.Str (bgColor ++ color ++ JS.LF ++ timestamp ++ " |");
                JS.Str (JS.padStart 10 " "%char (key L));
                JS.Str (JS.LF ++ "|---");
                JS.Str (fileName caller);
                JS.Str (JS.LF ++ "|---");
                JS.Str (method caller);
                JS.Str "";
                JS.Str (JS.LF ++ LoggerColors.Reset ++ LoggerColors.Reset) ]
              ++ fragments e self messages ++ [JS.Str JS.LF] ])%list
      /\ (enableFileLogging w = true ->
          match L with
          | ERROR | FATAL =>
              forall joined,
                JS.join " " (fragments e self messages) = JS.Normal joined ->
                exists file,
                  files w' !! file
                  = Some (default "" (files w !! file)
                          ++ timestamp ++ " | " ++ key L ++ " | "
                          ++ fileName caller ++ " | " ++ method caller
                          ++ " | " ++ joined ++ JS.LF)
          | _ => files w' = files w
          end))
  /\ (exists w',
         child host this p tr w = Returns (List.length (heap w)) w'
         /\ prefix <$> heap w' !! List.length (heap w) = Some p).
Proof.
  intros Hthis Hprefix Hg Hcall Hrank timestamp caller. cbv zeta. split.
  - destruct (invoke_spec host e L call this self messages w Hcall Hthis)
      as (color & bgColor & ->).
    assert (Hlt : js_lt (LoggerLevels (key L)) (LoggerLevels (globalLogLevel w))
                  = false)
      by (rewrite Hg, js_lt_key; now apply Z.ltb_ge).
    exists color, bgColor. split.
    { intros Hok. apply (__log_outcome host this self); [assumption|].
      rewrite to_file_key. exact Hok. }
    split.
    { destruct (__log_admitted_frame host this self (key L)
                  (fragments e self messages) color bgColor w Hthis Hlt)
        as (Hc & _).
      rewrite Hc. fold timestamp caller. now rewrite Hprefix. }
    intros Hen. rewrite (__log_world host this self) by assumption.
    cbv zeta. fold timestamp caller. rewrite Hprefix, to_file_key.
    destruct L; try reflexivity;
      intros joined ->;
      rewrite __logToFile_spec;
      cbn [world_of enableFileLogging set_console set_stackCaptures
           set_clockReads]; rewrite Hen;
      cbn [files set_files set_dirs set_clockReads set_console
           set_stackCaptures logDirectory clockReads];
      eexists; rewrite lookup_insert_eq; unfold file_line;
      cbn [JS.truthy JS.template String.eqb negb];
      rewrite !append_assoc; reflexivity.
  - rewrite (child_spec host this self) by assumption.
    eexists. split; [reflexivity|]. cbn [heap set_heap].
    rewrite list_lookup_middle by reflexivity.
    cbn [fmap option_fmap option_map prefix]. now rewrite Hprefix.
Qed.

Lemma C10_empty_prefix_witness :
  exists w',
    child Demo.host 0%nat (Some "B") false (Demo.world (Some ""))
    = Returns 1%nat w'
    /\ prefix <$> heap w' !! 1%nat = Some (Some "B").
Proof.
  exact (proj2 (C10_empty_prefix Demo.host (Demo.world (Some "")) 0%nat
                  (Demo.logger (Some "")) Shortcut ERROR INFO
                  (error Demo.host) [JS.Str "boom"] (Some "B") false
                  eq_refl eq_refl eq_refl eq_refl ltac:(discriminate))).
Defined.

(** ** Further properties of the code *)



(** The caller resolver falls back to the sentinel when the stack cannot
    be inspected, and when no frame from index 2 on lies outside the
    logger's own file. *)
Theorem caller_sentinel (host : Host) (frames : list CallSite) :
  Forall (fun callSite =>
            getFileName callSite = None
            \/ getFileName callSite = Some ""
            \/ getFileName callSite = Some (__filename host))
         (drop 2 frames) ->
  resolve_caller host None
  = {| fileName := "unknown:-1"; method := "unknown" |}
  /\ resolve_caller host (Some frames)
     = {| fileName := "unknown:-1"; method := "unknown" |}.
Proof.
  intros Hall. split; [reflexivity|]. unfold resolve_caller.
  assert (Hscan : scan_frames host (drop 2 frames) = (None, None, None)).
  { induction Hall as [|callSite rest Hcs _ IH]; [reflexivity|].
    cbn [scan_frames].
    destruct Hcs as [-> | [-> | ->]]; cbn [JS.truthy JS.template andb];
      try exact IH.
    rewrite String.eqb_refl. cbn [negb]. rewrite andb_false_r. exact IH. }
  rewrite Hscan. reflexivity.
Qed.

Lemma caller_sentinel_witness :
  resolve_caller Demo.host None
  = {| fileName := "unknown:-1"; method := "unknown" |}
  /\ resolve_caller Demo.host
       (Some [Demo.internal "__getCallerInfo"; Demo.internal "__log";
              Demo.internal "info"])
     = {| fileName := "unknown:-1"; method := "unknown" |}.
Proof.
  refine (caller_sentinel Demo.host
            [Demo.internal "__getCallerInfo"; Demo.internal "__log";
             Demo.internal "info"] _).
  apply List.Forall_cons; [right; right; reflexivity | apply List.Forall_nil].
Defined.

(** The first frame from index 2 on with a file other than the logger's
    decides: its path relative to the working directory, its line and
    its function name (or ["anonymous"]). *)
Theorem caller_first_external (host : Host) (f0 f1 callSite : CallSite)
        (skipped rest : list CallSite) (file : string) (line : Z) :
  Forall (fun callSite =>
            getFileName callSite = None
            \/ getFileName callSite = Some ""
            \/ getFileName callSite = Some (__filename host))
         skipped ->
  getFileName callSite = Some file ->
  file <> "" ->
  file <> __filename host ->
  JS.includes "logger.ts" file = false ->
  getLineNumber callSite = Some line ->
  line <> 0 ->
  resolve_caller host (Some (f0 :: f1 :: skipped ++ callSite :: rest))
  = {| fileName :=
         JS.or_else (Some (relative host (cwd host) file)) "unknown"
         ++ ":" ++ JS.Number_toString line;
       method := JS.or_else (getFunctionName callSite) "anonymous" |}.
Proof.
  intros Hskip Hfile Hne Hext Hnolog Hline Hnz.
  unfold resolve_caller.
  change (drop 2 (f0 :: f1 :: skipped ++ callSite :: rest)%list)
    with (skipped ++ callSite :: rest)%list.
  assert (Hscan : scan_frames host (skipped ++ callSite :: rest)
                  = scan_frames host (callSite :: rest)).
  { induction Hskip as [|cs more Hcs _ IH]; [reflexivity|].
    cbn [app scan_frames].
    destruct Hcs as [-> | [-> | ->]]; cbn [JS.truthy JS.template andb];
      try exact IH.
    rewrite String.eqb_refl. cbn [negb]. rewrite andb_false_r. exact IH. }
  rewrite Hscan. cbn [scan_frames]. rewrite Hfile.
  cbn [JS.truthy JS.template].
  destruct (String.eqb_spec file ""); [contradiction|].
  destruct (String.eqb_spec file (__filename host)); [contradiction|].
  cbn [negb andb]. rewrite Hnolog, Hline. cbn [negb JS.truthy_number].
  destruct (Z.eqb_spec line 0); [contradiction|]. cbn [negb default].
  f_equal.
  destruct (getFunctionName callSite) as [name|]; [|reflexivity].
  unfold JS.or_else. cbn [JS.truthy JS.template].
  destruct (String.eqb name "") eqn:Hname; cbn [negb]; [reflexivity|].
  now rewrite Hname.
Qed.

Lemma caller_first_external_witness :
  resolve_caller Demo.host (Some (Demo.frames 2))
  = {| fileName := "src/main.js:12"; method := "run" |}.
Proof.
  refine (caller_first_external Demo.host (Demo.internal "__getCallerInfo")
            (Demo.internal "__log")
            {| getFileName := Some "/app/src/main.js";
               getFunctionName := Some "run";
               getLineNumber := Some 12 |}
            [Demo.internal "info"] [] "/app/src/main.js" 12 _ eq_refl
            ltac:(discriminate) ltac:(discriminate) eq_refl eq_refl
            ltac:(discriminate)).
  apply List.Forall_cons; [right; right; reflexivity | apply List.Forall_nil].
Defined.

(** ** What logging leaves alone *)

Lemma append_nil_r (s : string) : s ++ "" = s.
Proof.
  induction s as [|c s IH]; [reflexivity|].
  rewrite append_cons. now rewrite IH.
Qed.

(** The file sink only adds: directories stay, and what a file held is
    the beginning of what it holds afterwards. *)
Lemma __logToFile_grows (host : Host) (message : string) (w : World) :
  dirs w ⊆ dirs (world_of (__logToFile host message w))
  /\ forall p old,
       files w !! p = Some old ->
       exists more,
         files (world_of (__logToFile host message w)) !! p
         = Some (old ++ more).
Proof.
  rewrite __logToFile_spec. cbn [world_of].
  destruct (enableFileLogging w).
  - cbn [dirs files set_files set_dirs set_clockReads]. split.
    + destruct (_ || _); set_solver.
    + intros p old Hp.
      match goal with
      | |- context [<[?f := _]> _] =>
          destruct (decide (f = p)) as [->|Hne]
      end.
      * rewrite lookup_insert_eq, Hp. cbn [default]. unfold id. eauto.
      * rewrite lookup_insert_ne by exact Hne. exists "".
        now rewrite append_nil_r.
  - split; [reflexivity|]. intros p old Hp. exists "".
    now rewrite append_nil_r.
Qed.

(** No logging call, through either entry point and whatever the
    configured minimum is, changes a logger object or the configuration,
    whether it returns or raises; it adds at most one block to the
    console, keeps every directory, and only appends to files.  At every
    level but ERROR and FATAL it returns the logger, and a call that
    returns returns the logger. *)
Theorem logging_frame (host : Host) (w : World) (this : ref)
        (self : Instance) (e : Entry) (L : Level)
        (call : ref -> list JS.Value -> M ref) (messages : list JS.Value) :
  heap w !! this = Some self ->
  invoke host e L = Some call ->
  let outcome := call this messages w in
  let w' := world_of outcome in
  (reaches_sink L = false -> outcome = Returns this w')
  /\ (forall a w'', outcome = Returns a w'' -> a = this)
  /\ heap w' = heap w
  /\ globalLogLevel w' = globalLogLevel w
  /\ logDirectory w' = logDirectory w
  /\ enableFileLogging w' = enableFileLogging w
  /\ (console w' = console w
      \/ exists block, console w' = (console w ++ [block])%list)
  /\ dirs w ⊆ dirs w'
  /\ forall p old,
       files w !! p = Some old ->
       exists more, files w' !! p = Some (old ++ more).
Proof.
  intros Hthis Hcall. cbv zeta.
  destruct (invoke_spec host e L call this self messages w Hcall Hthis)
    as (color & bgColor & ->).
  split.
  { intros Hsink. apply (__log_outcome host this self); [assumption|].
    left. now rewrite to_file_key. }
  split.
  { intros a w''.
    destruct (js_lt (LoggerLevels (key L)) (LoggerLevels (globalLogLevel w)))
      eqn:Hlt.
    - rewrite __log_filtered by exact Hlt. now intros [= <- _].
    - rewrite (__log_admitted host this self) by assumption. cbv zeta.
      destruct (JS.array_includes _ _); [|now intros [= <- _]].
      destruct (JS.join _ _); [now intros [= <- _] | discriminate]. }
  destruct (js_lt (LoggerLevels (key L)) (LoggerLevels (globalLogLevel w)))
    eqn:Hlt.
  - rewrite __log_filtered by exact Hlt. cbn [world_of].
    repeat (split; [reflexivity|]). split; [now left|].
    split; [reflexivity|]. intros p old Hp. exists "".
    now rewrite append_nil_r.
  - destruct (__log_admitted_frame host this self (key L)
                (fragments e self messages) color bgColor w Hthis Hlt)
      as (Hc & Hh & Hg & Hd & He).
    repeat (split; [assumption|]).
    split; [right; eexists; exact Hc|].
    rewrite (__log_world host this self) by assumption. cbv zeta.
    set (w1 := set_console _ _).
    assert (H1 : dirs w ⊆ dirs w1
                 /\ forall p old,
                      files w !! p = Some old ->
                      exists more, files w1 !! p = Some (old ++ more)).
    { split; [reflexivity|]. intros p old Hp. exists "".
      rewrite append_nil_r. exact Hp. }
    destruct (JS.array_includes _ _); [|exact H1].
    destruct (JS.join _ _) as [joined|err]; [|exact H1].
    match goal with
    | |- context [__logToFile host ?m w1] =>
        destruct (__logToFile_grows host m w1) as (Hdirs & Hfiles)
    end.
    split; [exact Hdirs | exact Hfiles].
Qed.

Lemma logging_frame_witness :
  let outcome :=
    fatal Demo.host 0%nat [JS.Str "boom"; JS.Symbol "s"]
      (Demo.world (Some "P")) in
  let w' := world_of outcome in
  (reaches_sink FATAL = false -> outcome = Returns 0%nat w')
  /\ (forall a w'', outcome = Returns a w'' -> a = 0%nat)
  /\ heap w' = heap (Demo.world (Some "P"))
  /\ globalLogLevel w' = globalLogLevel (Demo.world (Some "P"))
  /\ logDirectory w' = logDirectory (Demo.world (Some "P"))
  /\ enableFileLogging w' = enableFileLogging (Demo.world (Some "P"))
  /\ (console w' = console (Demo.world (Some "P"))
      \/ exists block,
           console w' = (console (Demo.world (Some "P")) ++ [block])%list)
  /\ dirs (Demo.world (Some "P")) ⊆ dirs w'
  /\ forall p old,
       files (Demo.world (Some "P")) !! p = Some old ->
       exists more, files w' !! p = Some (old ++ more).
Proof.
  exact (logging_frame Demo.host (Demo.world (Some "P")) 0%nat
           (Demo.logger (Some "P")) Shortcut FATAL (fatal Demo.host)
           [JS.Str "boom"; JS.Symbol "s"] eq_refl eq_refl).
Defined.

(** ** The file sink *)

(** Two lines handed to the file sink on the same local date, with file
    logging enabled, end up in the same daily file, one after the other,
    each followed by a newline, after what the file held before; no
    other file changes. *)
Theorem file_sink_appends_in_order (host : Host) (w : World)
        (m1 m2 : string) :
  enableFileLogging w = true ->
  let d1 := clock host (clockReads w) in
  let d2 := clock host (S (clockReads w)) in
  getFullYear d1 = getFullYear d2 ->
  getMonth d1 = getMonth d2 ->
  getDate d1 = getDate d2 ->
  let YYYY := JS.Number_toString (getFullYear d1) in
  let MM := JS.padStart 2 "0"%char (JS.Number_toString (getMonth d1 + 1)) in
  let DD := JS.padStart 2 "0"%char (JS.Number_toString (getDate d1)) in
  let file :=
    NodePath.join
      [NodePath.join [logDirectory w; YYYY ++ "/" ++ YYYY ++ "-" ++ MM];
       YYYY ++ "-" ++ MM ++ "-" ++ DD ++ ".log"] in
  exists w',
    (__logToFile host m1;; __logToFile host m2) w = Returns tt w'
    /\ files w' !! file
       = Some (default "" (files w !! file) ++ m1 ++ JS.LF ++ m2 ++ JS.LF)
    /\ forall p, p <> file -> files w' !! p = files w !! p.
Proof.
  intros Hen d1 d2 Hy Hm Hd YYYY MM DD file.
  cbv [mbind M_bind]. rewrite __logToFile_spec, Hen. fold d1 YYYY MM DD.
  fold file. 
  set (w1 := set_files _ _).
  rewrite __logToFile_spec.
  assert (Hen1 : enableFileLogging w1 = true) by exact Hen.
  rewrite Hen1.
  change (clock host (clockReads w1)) with d2.
  change (logDirectory w1) with (logDirectory w).
  rewrite <- Hy, <- Hm, <- Hd. fold YYYY MM DD. fold file.
  eexists. split; [reflexivity|]. cbn [files set_files set_dirs set_clockReads].
  split.
  - rewrite lookup_insert_eq. unfold w1. cbn [files set_files].
    rewrite lookup_insert_eq. cbn [default]. unfold id.
    now rewrite !append_assoc.
  - intros p Hp. rewrite lookup_insert_ne by congruence.
    unfold w1. cbn [files set_files]. now rewrite lookup_insert_ne by congruence.
Qed.

Lemma file_sink_appends_in_order_witness :
  exists w',
    (__logToFile Demo.host "first";; __logToFile Demo.host "second")
      (Demo.world None)
    = Returns tt w'
    /\ files w' !! "/tmp/logs/2024/2024-03/2024-03-07.log"
       = Some ("first" ++ JS.LF ++ "second" ++ JS.LF)
    /\ forall p, p <> "/tmp/logs/2024/2024-03/2024-03-07.log" ->
                 files w' !! p = files (Demo.world None) !! p.
Proof.
  exact (file_sink_appends_in_order Demo.host (Demo.world None)
           "first" "second" eq_refl eq_refl eq_refl eq_refl).
Defined.

(** ** The configuration setters *)

(** After [setFileLogging(false)] an admitted ERROR or FATAL call still
    prints its console block but touches neither files nor directories;
    it returns the logger when its fragments can be converted to
    strings, as a call at any other level does in any case. *)
Theorem setFileLogging_off (host : Host) (w : World) (this : ref)
        (self : Instance) (e : Entry) (L g : Level)
        (call : ref -> list JS.Value -> M ref) (messages : list JS.Value) :
  heap w !! this = Some self ->
  globalLogLevel w = key g ->
  invoke host e L = Some call ->
  rank g <= rank L ->
  let outcome := (setFileLogging false;; call this messages) w in
  let w' := world_of outcome in
  (reaches_sink L = false \/ converts (fragments e self messages) ->
   outcome = Returns this w')
  /\ (exists block, console w' = (console w ++ [block])%list)
  /\ files w' = files w /\ dirs w' = dirs w
  /\ enableFileLogging w' = false.
Proof.
  intros Hthis Hg Hcall Hrank.
  cbv [mbind M_bind setFileLogging modify].
  destruct (invoke_spec host e L call this self messages
              (set_enableFileLogging false w) Hcall Hthis)
    as (color & bgColor & ->).
  assert (Hlt : js_lt (LoggerLevels (key L))
                  (LoggerLevels (globalLogLevel (set_enableFileLogging false w)))
                = false)
    by (cbn [globalLogLevel set_enableFileLogging];
        rewrite Hg, js_lt_key; now apply Z.ltb_ge).
  split.
  { intros Hok. apply (__log_outcome host this self); [assumption|].
    rewrite to_file_key. exact Hok. }
  destruct (__log_admitted_frame host this self (key L)
              (fragments e self messages) color bgColor
              (set_enableFileLogging false w) Hthis Hlt)
    as (Hc & _ & _ & _ & He).
  split; [eexists; exact Hc|].
  rewrite (__log_world host this self) by assumption. cbv zeta.
  destruct (JS.array_includes _ _); [|repeat split; reflexivity].
  destruct (JS.join _ _) as [joined|err]; [|repeat split; reflexivity].
  rewrite __logToFile_spec. cbn [world_of]. repeat split; reflexivity.
Qed.

Lemma setFileLogging_off_witness :
  let outcome :=
    (setFileLogging false;; error Demo.host 0%nat [JS.Str "boom"])
      (Demo.world None) in
  let w' := world_of outcome in
  (reaches_sink ERROR = false \/ converts [JS.Str "boom"] ->
   outcome = Returns 0%nat w')
  /\ (exists block, console w' = (console (Demo.world None) ++ [block])%list)
  /\ files w' = files (Demo.world None)
  /\ dirs w' = dirs (Demo.world None)
  /\ enableFileLogging w' = false.
Proof.
  exact (setFileLogging_off Demo.host (Demo.world None) 0%nat
           (Demo.logger None) Shortcut ERROR INFO (error Demo.host)
           [JS.Str "boom"] eq_refl eq_refl eq_refl ltac:(discriminate)).
Defined.

(** [setLogDirectory(d)] stores [d] as given, and the next line handed
    to the file sink goes to the daily file under [d]; every other file,
    whatever directory it is in, keeps its contents. *)
Theorem setLogDirectory_redirects (host : Host) (w : World)
        (directory message : string) :
  enableFileLogging w = true ->
  let today := clock host (clockReads w) in
  let YYYY := JS.Number_toString (getFullYear today) in
  let MM := JS.padStart 2 "0"%char (JS.Number_toString (getMonth today + 1)) in
  let DD := JS.padStart 2 "0"%char (JS.Number_toString (getDate today)) in
  let file :=
    NodePath.join
      [NodePath.join [directory; YYYY ++ "/" ++ YYYY ++ "-" ++ MM];
       YYYY ++ "-" ++ MM ++ "-" ++ DD ++ ".log"] in
  exists w',
    (setLogDirectory directory;; __logToFile host message) w = Returns tt w'
    /\ logDirectory w' = directory
    /\ files w' !! file
       = Some (default "" (files w !! file) ++ message ++ JS.LF)
    /\ forall p, p <> file -> files w' !! p = files w !! p.
Proof.
  intros Hen today YYYY MM DD file.
  cbv [mbind M_bind setLogDirectory modify].
  rewrite __logToFile_spec.
  cbn [enableFileLogging logDirectory clockReads files dirs set_logDirectory].
  rewrite Hen. fold today YYYY MM DD. fold file.
  eexists. split; [reflexivity|].
  cbn [logDirectory files set_files set_dirs set_clockReads set_logDirectory].
  split; [reflexivity|]. split; [apply lookup_insert_eq|].
  intros p Hp. now rewrite lookup_insert_ne by congruence.
Qed.

Lemma setLogDirectory_redirects_witness :
  exists w',
    (setLogDirectory "/var/log/app";; __logToFile Demo.host "line")
      (Demo.world None)
    = Returns tt w'
    /\ logDirectory w' = "/var/log/app"
    /\ files w' !! "/var/log/app/2024/2024-03/2024-03-07.log"
       = Some ("line" ++ JS.LF)
    /\ forall p, p <> "/var/log/app/2024/2024-03/2024-03-07.log" ->
                 files w' !! p = files (Demo.world None) !! p.
Proof.
  exact (setLogDirectory_redirects Demo.host (Demo.world None)
           "/var/log/app" "line" eq_refl).
Defined.

Lemma filter_plain (segs : list string) :
  forallb plain_segment segs = true ->
  filter (fun a : string => a <> "") segs = segs.
Proof.
  induction segs as [|a segs IH]; [reflexivity|].
  intros [Ha Hsegs]%andb_true_iff.
  destruct (plain_segment_headed a Ha) as (c & r & -> & _).
  rewrite filter_cons_True by discriminate. now rewrite IH.
Qed.

Lemma with_ancestors_plain (absolute : bool) (segs : list string) :
  segs <> [] ->
  forallb plain_segment segs = true ->
  NodePath.with_ancestors (plain_path absolute segs)
  = map (fun k => plain_path absolute (take k segs))
        (seq 1 (List.length segs)).
Proof.
  intros Hne Hsegs.
  destruct (concat_headed segs Hne Hsegs) as (c & r & Hbody & Hc).
  pose proof (split_concat segs Hne Hsegs) as Hsplit.
  unfold NodePath.with_ancestors, plain_path. destruct absolute.
  - rewrite append_cons, append_nil_l. cbn [NodePath.starts_with_slash].
    change (Ascii.eqb "/" NodePath.slash) with true. cbn iota.
    cbn [NodePath.split]. change (Ascii.eqb "/" NodePath.slash) with true.
    cbn iota. rewrite Hsplit.
    rewrite filter_cons_False by (intros H; now apply H).
    rewrite filter_plain by assumption.
    apply map_ext. intros k. now rewrite append_cons, append_nil_l.
  - rewrite append_nil_l, Hsplit, filter_plain by assumption.
    rewrite Hbody. cbn [NodePath.starts_with_slash].
    unfold not_slash in Hc. apply negb_true_iff in Hc. rewrite Hc.
    reflexivity.
Qed.

Lemma ancestor_created (absolute : bool) (segs : list string) (k : nat) :
  segs <> [] ->
  forallb plain_segment segs = true ->
  (1 <= k <= List.length segs)%nat ->
  plain_path absolute (take k segs)
  ∈ NodePath.with_ancestors (plain_path absolute segs).
Proof.
  intros Hne Hsegs Hk. rewrite with_ancestors_plain by assumption.
  apply list_elem_of_In, in_map_iff. exists k. split; [reflexivity|].
  apply in_seq. lia.
Qed.

(** With file logging enabled and a plain log directory [d]: if the
    month's directory [d/<YYYY>/<YYYY>-<MM>] already exists, the file sink
    creates nothing; if not, it creates that directory together with
    [d/<YYYY>] and [d]; and a second line on the same date creates
    nothing more. *)
Theorem log_directory_created_once (host : Host) (w : World)
        (message message' : string) (absolute : bool) (segs : list string) :
  enableFileLogging w = true ->
  logDirectory w = plain_path absolute segs ->
  segs <> [] ->
  forallb plain_segment segs = true ->
  let d1 := clock host (clockReads w) in
  let d2 := clock host (S (clockReads w)) in
  getFullYear d1 = getFullYear d2 ->
  getMonth d1 = getMonth d2 ->
  let YYYY := JS.Number_toString (getFullYear d1) in
  let MM := JS.padStart 2 "0"%char (JS.Number_toString (getMonth d1 + 1)) in
  let logDir := logDirectory w ++ "/" ++ YYYY ++ "/" ++ YYYY ++ "-" ++ MM in
  let w1 := world_of (__logToFile host message w) in
  let w2 := world_of (__logToFile host message' w1) in
  (logDir ∈ dirs w \/ is_Some (files w !! logDir) -> dirs w1 = dirs w)
  /\ (logDir ∉ dirs w -> files w !! logDir = None ->
      logDir ∈ dirs w1
      /\ logDirectory w ++ "/" ++ YYYY ∈ dirs w1
      /\ logDirectory w ∈ dirs w1)
  /\ dirs w ⊆ dirs w1
  /\ dirs w2 = dirs w1.
Proof.
  intros Hen Hdir Hne Hsegs d1 d2 Hy Hm YYYY MM logDir w1 w2.
  assert (HY : decimal YYYY) by apply Number_toString_decimal.
  assert (HM : decimal MM) by apply padStart_decimal, Number_toString_decimal.
  assert (Hmore : forallb plain_segment [YYYY; YYYY ++ "-" ++ MM] = true).
  { cbn [forallb]. rewrite (decimal_plain YYYY HY).
    now rewrite (decimal_plain _ (dash_decimal _ _ HY HM)). }
  destruct (join_plain absolute segs [YYYY; YYYY ++ "-" ++ MM])
    as [Hjoin Hlit]; try assumption; try discriminate.
  change (NodePath.concat_with "/" [YYYY; YYYY ++ "-" ++ MM])
    with (YYYY ++ "/" ++ YYYY ++ "-" ++ MM) in Hjoin, Hlit.
  assert (HlogDir : NodePath.join
                      [logDirectory w; YYYY ++ "/" ++ YYYY ++ "-" ++ MM]
                    = logDir).
  { unfold logDir. rewrite Hdir, Hjoin. exact Hlit. }
  assert (Hpos : (1 <= List.length segs)%nat)
    by (destruct segs; [congruence | cbn [List.length]; lia]).
  set (all := app segs [YYYY; YYYY ++ "-" ++ MM]) in *.
  assert (Hall_ne : all <> []) by (unfold all; destruct segs; discriminate).
  assert (Hall : forallb plain_segment all = true)
    by (unfold all; rewrite forallb_app, Hsegs; exact Hmore).
  assert (Hpath : logDir = plain_path absolute all)
    by (unfold logDir; rewrite Hdir; now symmetry).
  assert (Hw1 : dirs w1
                = if bool_decide (logDir ∈ dirs w)
                     || bool_decide (is_Some (files w !! logDir))
                  then dirs w
                  else dirs w ∪ list_to_set (NodePath.with_ancestors logDir)).
  { unfold w1. rewrite __logToFile_spec, Hen. cbn [world_of dirs set_files set_dirs].
    fold d1 YYYY MM. now rewrite HlogDir. }
  assert (Hin : forall k, (1 <= k <= List.length all)%nat ->
                  logDir ∉ dirs w -> files w !! logDir = None ->
                  plain_path absolute (take k all) ∈ dirs w1).
  { intros k Hk Hnd Hnf. rewrite Hw1.
    rewrite (bool_decide_eq_false_2 _ Hnd).
    rewrite bool_decide_eq_false_2 by (rewrite Hnf; apply is_Some_None).
    cbn [orb]. apply elem_of_union_r, elem_of_list_to_set.
    rewrite Hpath. now apply ancestor_created. }
  assert (Hlen : List.length all = S (S (List.length segs)))
    by (unfold all; rewrite length_app; cbn [List.length]; lia).
  split; [|split; [|split]].
  - intros Hex. rewrite Hw1.
    destruct Hex as [Hd | Hf].
    + now rewrite (bool_decide_eq_true_2 _ Hd).
    + rewrite (bool_decide_eq_true_2 _ Hf). now rewrite orb_true_r.
  - intros Hnd Hnf. split; [|split].
    + rewrite Hpath at 1. rewrite <- (firstn_all all). apply Hin; [lia|..];
        assumption.
    + replace (logDirectory w ++ "/" ++ YYYY)
        with (plain_path absolute (take (S (List.length segs)) all)).
      * apply Hin; [lia|..]; assumption.
      * unfold all.
        replace (S (List.length segs)) with (List.length segs + 1)%nat by lia.
        rewrite take_app_add' by reflexivity. cbn [take].
        destruct (join_plain absolute segs [YYYY]) as [_ Hlit1];
          try assumption; try discriminate.
        { cbn [forallb]. now rewrite (decimal_plain YYYY HY). }
        rewrite Hlit1, Hdir. reflexivity.
    + replace (logDirectory w)
        with (plain_path absolute (take (List.length segs) all)).
      * apply Hin; [lia|assumption..].
      * unfold all. rewrite take_app_length. now symmetry.
  - rewrite Hw1. clear. destruct (_ || _); set_solver.
  - unfold w2. rewrite __logToFile_spec.
    assert (Hen1 : enableFileLogging w1 = true).
    { unfold w1. rewrite __logToFile_spec, Hen. exact Hen. }
    rewrite Hen1. cbn [world_of dirs set_files set_dirs].
    assert (Hclock : clockReads w1 = S (clockReads w)).
    { unfold w1. rewrite __logToFile_spec, Hen. reflexivity. }
    assert (Hdir1 : logDirectory w1 = logDirectory w).
    { unfold w1. rewrite __logToFile_spec, Hen. reflexivity. }
    rewrite Hclock, Hdir1. fold d2. rewrite <- Hy, <- Hm. fold YYYY MM.
    rewrite HlogDir.
    assert (Hex : logDir ∈ dirs w1 \/ is_Some (files w1 !! logDir)).
    { destruct (decide (logDir ∈ dirs w)) as [Hd|Hnd].
      - left. rewrite Hw1. now rewrite (bool_decide_eq_true_2 _ Hd).
      - destruct (files w !! logDir) as [old|] eqn:Hf.
        + right. unfold w1. rewrite __logToFile_spec, Hen.
          cbn [world_of files set_files].
          match goal with
          | |- is_Some (<[?f := _]> _ !! _) =>
              destruct (decide (f = logDir)) as [->|Hneq]
          end.
          * rewrite lookup_insert_eq. eauto.
          * rewrite lookup_insert_ne by exact Hneq. rewrite Hf. eauto.
        + left. rewrite Hpath at 1. rewrite <- (firstn_all all).
          apply Hin; [lia | exact Hnd | reflexivity]. }
    destruct Hex as [Hd | Hf].
    + now rewrite (bool_decide_eq_true_2 _ Hd).
    + rewrite (bool_decide_eq_true_2 _ Hf). now rewrite orb_true_r.
Qed.

Lemma log_directory_created_once_witness :
  "/tmp/logs/2024/2024-03"
    ∈ dirs (world_of (__logToFile Demo.host "line" (Demo.world None)))
  /\ "/tmp/logs/2024"
       ∈ dirs (world_of (__logToFile Demo.host "line" (Demo.world None)))
  /\ "/tmp/logs"
       ∈ dirs (world_of (__logToFile Demo.host "line" (Demo.world None))).
Proof.
  refine (proj1 (proj2 (log_directory_created_once Demo.host (Demo.world None)
                          "line" "next" true ["tmp"; "logs"]
                          eq_refl eq_refl ltac:(discriminate) eq_refl
                          eq_refl eq_refl)) _ eq_refl).
  apply not_elem_of_empty.
Defined.

(** ** More on timers *)

(** On a live logger [__log] at a level other than ERROR and FATAL returns
    the logger and changes no logger object, whatever the configured
    minimum is. *)
Lemma __log_heap (host : Host) (this : ref) (self : Instance)
      (level : string) (messages : list JS.Value) (color bgColor : string)
      (w : World) :
  heap w !! this = Some self ->
  JS.array_includes ["ERROR"; "FATAL"] level = false ->
  exists w',
    __log host this level messages color bgColor w = Returns this w'
    /\ heap w' = heap w.
Proof.
  intros Hthis Hlevel.
  rewrite (__log_outcome host this self) by (try assumption; now left).
  eexists. split; [reflexivity|].
  destruct (js_lt (LoggerLevels level) (LoggerLevels (globalLogLevel w)))
    eqn:Hlt.
  - now rewrite __log_filtered.
  - now destruct (__log_admitted_frame host this self level messages color
                    bgColor w Hthis Hlt) as (_ & Hh & _).
Qed.

Lemma timeEnd_heap (host : Host) (this : ref) (self : Instance)
      (label : string) (w : World) :
  heap w !! this = Some self ->
  exists w',
    timeEnd host this label w = Returns this w'
    /\ heap w'
       = if truthy_slot (timeMap_get (timeMap self) label)
         then <[this := set_timeMap (delete label) self]> (heap w)
         else heap w.
Proof.
  intros Hthis. unfold timeEnd. run. rewrite Hthis.
  destruct (truthy_slot (timeMap_get (timeMap self) label)); run.
  - match goal with
    | |- context [__log host this ?lv ?ms ?c ?b ?w1] =>
        destruct (__log_heap host this self lv ms c b w1 Hthis eq_refl)
          as (w' & -> & Hh)
    end.
    cbn [heap set_clockReads] in Hh. rewrite Hh, Hthis.
    eexists. split; reflexivity.
  - match goal with
    | |- context [__log host this ?lv ?ms ?c ?b ?w1] =>
        destruct (__log_heap host this self lv ms c b w1 Hthis eq_refl)
          as (w' & -> & Hh)
    end.
    exists w'. split; [reflexivity | exact Hh].
Qed.

(** Timers are per logger and per label: [timeStart(L)] and [timeEnd(L)]
    on one logger leave every other logger as it was, and on the logger
    itself change nothing but the entry of [L] in its timer map. *)
Theorem timers_frame (host : Host) (w : World) (this : ref)
        (self : Instance) (label : string) :
  heap w !! this = Some self ->
  (exists w',
      timeStart host this label w = Returns this w'
      /\ only_label_changed this label w w')
  /\ (exists w',
         timeEnd host this label w = Returns this w'
         /\ only_label_changed this label w w').
Proof.
  intros Hthis.
  pose proof (lookup_lt_Some _ _ _ Hthis) as Hlt.
  assert (Hins : forall (f : gmap string Z -> gmap string Z) w',
             (forall m other, other <> label -> f m !! other = m !! other) ->
             heap w' = <[this := set_timeMap f self]> (heap w) ->
             only_label_changed this label w w').
  { intros f w' Hf Hh. unfold only_label_changed. rewrite Hh.
    split; [apply length_insert|].
    split; [intros r Hr; now apply list_lookup_insert_ne|].
    intros self0 Hself0. rewrite Hthis in Hself0. injection Hself0 as <-.
    exists (set_timeMap f self).
    split; [now apply list_lookup_insert_eq|].
    split; [intros other Hne; now apply Hf|]. repeat split; reflexivity. }
  split.
  - rewrite (timeStart_spec host this self) by assumption.
    eexists. split; [reflexivity|].
    apply (Hins (timeMap_set label (getTime (clock host (clockReads w))))).
    + intros m other Hne. unfold timeMap_set.
      destruct (m !! label); [now apply lookup_insert_ne|].
      destruct (String.eqb label "__proto__"); [reflexivity|].
      now apply lookup_insert_ne.
    + reflexivity.
  - destruct (timeEnd_heap host this self label w Hthis) as (w' & -> & Hh).
    exists w'. split; [reflexivity|].
    destruct (truthy_slot (timeMap_get (timeMap self) label)).
    + apply (Hins (delete label)); [|exact Hh].
      intros m other Hne. now apply lookup_delete_ne.
    + unfold only_label_changed. rewrite Hh.
      split; [reflexivity|]. split; [reflexivity|].
      intros self0 Hself0. exists self0. repeat split; try reflexivity.
      exact Hself0.
Qed.

Lemma timers_frame_witness :
  exists w',
    timeEnd Demo.host 0%nat "x" Demo.timed = Returns 0%nat w'
    /\ only_label_changed 0%nat "x" Demo.timed w'.
Proof.
  exact (proj2 (timers_frame Demo.host Demo.timed 0%nat Demo.timed_logger "x"
                  eq_refl)).
Defined.

(** [timeStart(L)] followed by [timeEnd(L)], when the clock does not read
    zero at the start, logs at level TIME the difference of the two
    readings as ["<L>: <difference>ms"] and leaves the timer map without
    [L]: what was recorded under [L] before is gone as well.  The one
    exception is the label ["__proto__"] on a map without such an entry:
    the assignment stores nothing, [timeEnd] reads the inherited object,
    logs ["__proto__: NaNms"] and leaves the map as it was. *)
Theorem timer_round_trip (host : Host) (w : World) (this : ref)
        (self : Instance) (label : string) (g : Level) :
  heap w !! this = Some self ->
  globalLogLevel w = key g ->
  let t0 := getTime (clock host (clockReads w)) in
  let t1 := getTime (clock host (S (clockReads w))) in
  t0 <> 0 ->
  exists w',
    (timeStart host this label;; timeEnd host this label) w = Returns this w'
    /\ (label <> "__proto__" \/ is_Some (timeMap self !! label) ->
        TIME_line g w w'
          (label ++ ": " ++ JS.Number_toString (t1 - t0) ++ "ms")
        /\ timeMap <$> heap w' !! this = Some (delete label (timeMap self)))
    /\ (label = "__proto__" -> timeMap self !! label = None ->
        TIME_line g w w' (label ++ ": NaNms")
        /\ timeMap <$> heap w' !! this = Some (timeMap self)).
Proof.
  intros Hthis Hg t0 t1 Hnz.
  pose proof (lookup_lt_Some _ _ _ Hthis) as Hlt.
  cbv [mbind M_bind].
  rewrite (timeStart_spec host this self) by assumption. fold t0.
  set (w1 := set_heap _ _).
  assert (H1 : heap w1 !! this = Some (set_timeMap (timeMap_set label t0) self))
    by (unfold w1; cbn [heap set_heap]; now apply list_lookup_insert_eq).
  destruct (decide (label <> "__proto__" \/ is_Some (timeMap self !! label)))
    as [Hown | Hproto].
  - pose proof (timeMap_set_insert label t0 (timeMap self) Hown) as Hset.
    destruct (timeEnd_running host this
                (set_timeMap (timeMap_set label t0) self) label t0 g w1 H1 Hg)
      as (w' & Hrun & Hheap & _ & Hline);
      [cbn [timeMap set_timeMap]; rewrite Hset; apply lookup_insert_eq
      | exact Hnz |].
    exists w'. split; [exact Hrun|]. split.
    + intros _. split; [exact Hline|].
      rewrite Hheap. unfold w1. cbn [heap set_heap set_clockReads].
      rewrite list_insert_insert_eq, list_lookup_insert_eq by assumption.
      cbn [fmap option_fmap option_map timeMap set_timeMap].
      rewrite Hset. now rewrite delete_insert_eq.
    + intros -> Hnone. exfalso. destruct Hown as [Hne | [t Ht]];
        [now apply Hne | congruence].
  - assert (Hlabel : label = "__proto__").
    { destruct (decide (label = "__proto__")) as [|Hne]; [assumption|].
      exfalso. apply Hproto. now left. }
    assert (Hnone : timeMap self !! label = None).
    { destruct (timeMap self !! label) as [t|] eqn:E; [|reflexivity].
      exfalso. apply Hproto. right. now exists t. }
    assert (Hset : timeMap_set label t0 (timeMap self) = timeMap self).
    { unfold timeMap_set. rewrite Hnone, Hlabel. reflexivity. }
    destruct (timeEnd_inherited host this
                (set_timeMap (timeMap_set label t0) self) label
                "[object Object]" g w1 H1 Hg)
      as (w' & Hrun & Hheap & _ & Hline);
      [cbn [timeMap set_timeMap]; now rewrite Hset
      | now rewrite Hlabel |].
    exists w'. split; [exact Hrun|]. split.
    + intros Hown. exfalso. now apply Hproto.
    + intros _ _. split; [exact Hline|].
      rewrite Hheap, H1.
      cbn [fmap option_fmap option_map timeMap set_timeMap].
      now rewrite Hset.
Qed.

Lemma timer_round_trip_witness :
  exists w',
    (timeStart Demo.host 0%nat "x";; timeEnd Demo.host 0%nat "x")
      (Demo.world None)
    = Returns 0%nat w'
    /\ ("x" <> "__proto__" \/ is_Some ((∅ : gmap string Z) !! "x") ->
        TIME_line INFO (Demo.world None) w' "x: 1ms"
        /\ timeMap <$> heap w' !! 0%nat = Some (delete "x" ∅))
    /\ ("x" = "__proto__" -> (∅ : gmap string Z) !! "x" = None ->
        TIME_line INFO (Demo.world None) w' "x: NaNms"
        /\ timeMap <$> heap w' !! 0%nat = Some ∅).
Proof.
  exact (timer_round_trip Demo.host (Demo.world None) 0%nat
           (Demo.logger None) "x" INFO eq_refl eq_refl ltac:(discriminate)).
Defined.

(** A start recorded as 0 (the clock read zero) counts as no start:
    [timeEnd(L)] logs ["<L>: -1ms"] and leaves the entry in the map. *)
Theorem timer_started_at_zero (host : Host) (w : World) (this : ref)
        (self : Instance) (label : string) (g : Level) :
  heap w !! this = Some self ->
  globalLogLevel w = key g ->
  timeMap self !! label = Some 0 ->
  exists w',
    timeEnd host this label w = Returns this w'
    /\ TIME_line g w w' (label ++ ": -1ms")
    /\ heap w' = heap w.
Proof.
  intros Hthis Hg Hzero.
  unfold timeEnd. run. rewrite Hthis. unfold timeMap_get. rewrite Hzero.
  cbn [truthy_slot Z.eqb negb]. run.
  destruct (__log_TIME host this self g (label ++ ": -1ms")
              LoggerColors.FgRed LoggerColors.BgBlack w Hthis Hg)
    as (w' & -> & Hheap & _ & Hline).
  exists w'. split; [reflexivity|]. split; [exact Hline | exact Hheap].
Qed.

Lemma timer_started_at_zero_witness :
  exists w',
    timeEnd Demo.host 0%nat "x" Demo.zero_timed = Returns 0%nat w'
    /\ TIME_line INFO Demo.zero_timed w' "x: -1ms"
    /\ heap w' = heap Demo.zero_timed.
Proof.
  exact (timer_started_at_zero Demo.host Demo.zero_timed 0%nat
           Demo.zero_timer "x" INFO eq_refl eq_refl eq_refl).
Defined.

(** The timer map is an object literal, so a label that names a member of
    [Object.prototype] finds that member when no timer was started under
    it: [timeEnd(L)] takes it for a start, logs ["<L>: NaNms"] where a
    label of no timer gives ["<L>: -1ms"], and changes no logger.
    [timeStart(L)] then records the reading under [L] like under any
    label, except under ["__proto__"], where it records nothing. *)
Theorem timer_inherited_label (host : Host) (w : World) (this : ref)
        (self : Instance) (label text : string) (g : Level) :
  heap w !! this = Some self ->
  globalLogLevel w = key g ->
  timeMap self !! label = None ->
  JS.Object_prototype label = Some text ->
  let now := getTime (clock host (clockReads w)) in
  (exists w',
      timeEnd host this label w = Returns this w'
      /\ TIME_line g w w' (label ++ ": NaNms")
      /\ heap w' = heap w)
  /\ (exists w',
         timeStart host this label w = Returns this w'
         /\ timeMap <$> heap w' !! this
            = Some (if String.eqb label "__proto__" then timeMap self
                    else <[label := now]> (timeMap self))).
Proof.
  intros Hthis Hg Hnone Hproto now.
  pose proof (lookup_lt_Some _ _ _ Hthis) as Hlt.
  split.
  - destruct (timeEnd_inherited host this self label text g w Hthis Hg Hnone
                Hproto) as (w' & Hrun & Hheap & _ & Hline).
    exists w'. split; [exact Hrun|]. split; [exact Hline | exact Hheap].
  - rewrite (timeStart_spec host this self) by assumption.
    eexists. split; [reflexivity|]. cbn [heap set_heap].
    rewrite list_lookup_insert_eq by assumption.
    cbn [fmap option_fmap option_map timeMap set_timeMap].
    unfold timeMap_set. now rewrite Hnone.
Qed.

Lemma timer_inherited_label_witness :
  (exists w',
      timeEnd Demo.host 0%nat "constructor" (Demo.world None)
      = Returns 0%nat w'
      /\ TIME_line INFO (Demo.world None) w' "constructor: NaNms"
      /\ heap w' = heap (Demo.world None))
  /\ (exists w',
         timeStart Demo.host 0%nat "constructor" (Demo.world None)
         = Returns 0%nat w'
         /\ timeMap <$> heap w' !! 0%nat
            = Some (<["constructor" := 1709800000000]> ∅)).
Proof.
  exact (timer_inherited_label Demo.host (Demo.world None) 0%nat
           (Demo.logger None) "constructor"
           "function Object() { [native code] }" INFO
           eq_refl eq_refl eq_refl eq_refl).
Defined.

(** ** More on child loggers *)

Lemma truthy_nonempty (p : string) : p <> "" -> JS.truthy (Some p) = true.
Proof.
  intros Hp. cbn [JS.truthy]. destruct (String.eqb_spec p ""); [contradiction|].
  reflexivity.
Qed.

Lemma descend_prefix_from (host : Host) (edges : list (string * bool)) :
  forall (this : ref) (self : Instance) (w : World) (p0 : string),
    heap w !! this = Some self ->
    prefix self = Some p0 ->
    p0 <> "" ->
    exists r w' obj,
      descend host this (map (fun e => (Some e.1, e.2)) edges) w
      = Returns r w'
      /\ heap w' !! r = Some obj
      /\ prefix obj = Some (arrow_path p0 (map fst edges)).
Proof.
  induction edges as [|[q tr] rest IH]; intros this self w p0 Hthis Hp Hne.
  - exists this, w, self. repeat split; assumption.
  - cbn [map descend fst snd]. cbv [mbind M_bind].
    rewrite (child_spec host this self) by assumption.
    rewrite Hp, (truthy_nonempty p0 Hne). cbn [JS.template].
    set (obj := {| timeMap := ∅; prefix := _; creationInfo := _;
                   parentTrace := _ |}).
    set (w1 := set_heap _ _).
    assert (H1 : heap w1 !! List.length (heap w) = Some obj)
      by (unfold w1; cbn [heap set_heap]; now apply list_lookup_middle).
    destruct (IH _ obj w1 (p0 ++ " -> " ++ q) H1 eq_refl)
      as (r & w' & obj' & Hrun & Hobj & Hprefix).
    { now apply append_not_empty_l. }
    exists r, w', obj'. repeat split; assumption.
Qed.

(** Along a line of [child] calls that all pass a prefix, starting from a
    logger with a non-empty prefix, the prefixes accumulate from left to
    right, joined by [" -> "]; starting from a logger without a prefix
    (or with the empty one), the first segment stands alone. *)
Theorem descend_prefix (host : Host) (w : World) (this : ref)
        (self : Instance) (edges : list (string * bool)) :
  heap w !! this = Some self ->
  (forall p0,
      prefix self = Some p0 -> p0 <> "" ->
      exists r w' obj,
        descend host this (map (fun e => (Some e.1, e.2)) edges) w
        = Returns r w'
        /\ heap w' !! r = Some obj
        /\ prefix obj = Some (arrow_path p0 (map fst edges)))
  /\ (forall q tr,
         JS.truthy (prefix self) = false -> q <> "" ->
         exists r w' obj,
           descend host this
             ((Some q, tr) :: map (fun e => (Some e.1, e.2)) edges) w
           = Returns r w'
           /\ heap w' !! r = Some obj
           /\ prefix obj = Some (arrow_path q (map fst edges))).
Proof.
  intros Hthis. split.
  - intros p0 Hp Hne. now apply (descend_prefix_from host edges this self).
  - intros q tr Hfalsy Hq. cbn [descend]. cbv [mbind M_bind].
    rewrite (child_spec host this self) by assumption. rewrite Hfalsy.
    set (obj := {| timeMap := ∅; prefix := _; creationInfo := _;
                   parentTrace := _ |}).
    set (w1 := set_heap _ _).
    assert (H1 : heap w1 !! List.length (heap w) = Some obj)
      by (unfold w1; cbn [heap set_heap]; now apply list_lookup_middle).
    exact (descend_prefix_from host edges _ obj w1 q H1 eq_refl Hq).
Qed.

Lemma descend_prefix_witness :
  exists r w' obj,
    descend Demo.host 0%nat [(Some "B", false); (Some "C", true)]
      (Demo.world (Some "A"))
    = Returns r w'
    /\ heap w' !! r = Some obj
    /\ prefix obj = Some "A -> B -> C".
Proof.
  exact (proj1 (descend_prefix Demo.host (Demo.world (Some "A")) 0%nat
                  (Demo.logger (Some "A")) [("B", false); ("C", true)]
                  eq_refl)
           "A" eq_refl ltac:(discriminate)).
Defined.

(** What [log] renders on a fresh child: with the trace enabled, the
    parent's trace lines, oldest first, followed by one line for the new
    edge (the parent's creation site and the site of this [child] call);
    with the trace disabled, no trace line at all, whatever the parent's
    chain is. *)
Theorem child_trace_lines (host : Host) (w : World) (this : ref)
        (self : Instance) (p : option string) (tr : bool) (level : string)
        (messages : list JS.Value) :
  heap w !! this = Some self ->
  exists c w1,
    child host this p tr w = Returns c w1
    /\ log host c level messages w1
       = __log host c level
           (if tr then
              fragments Generic self messages
              ++ [JS.Str ("Trace: Parent created at "
                          ++ fileName (creationInfo self)
                          ++ ", Child created at "
                          ++ fileName
                               (resolve_caller host
                                  (stack host (stackCaptures w))))]
            else messages)
           LoggerColors.Reset LoggerColors.Reset w1.
Proof.
  intros Hthis. rewrite (child_spec host this self) by assumption.
  eexists _, _. split; [reflexivity|].
  unfold log. run. rewrite list_lookup_middle by reflexivity.
  destruct tr; cbn [parentTrace]; [|reflexivity].
  f_equal. cbn [traceMessages inheritedTrace fragments rev].
  rewrite map_app, app_assoc. f_equal.
  destruct (parentTrace self) as [t|]; cbn [chain]; [|reflexivity].
  f_equal. now rewrite traceMessages_links, <- map_rev, map_map.
Qed.

Lemma child_trace_lines_witness :
  exists c w1,
    child Demo.host 2%nat (Some "C") false Demo.traced = Returns c w1
    /\ log Demo.host c "INFO" [JS.Str "hello"] w1
       = __log Demo.host c "INFO" [JS.Str "hello"]
           LoggerColors.Reset LoggerColors.Reset w1.
Proof.
  exact (child_trace_lines Demo.host Demo.traced 2%nat Demo.traced_b
           (Some "C") false "INFO" [JS.Str "hello"] eq_refl).
Defined.

(** ** More on the caller resolver *)

(** The deciding frame is the first one from index 2 on with a file name
    other than the logger's own, however many frames of the logger come
    before it.  Its line number is dropped when its file name contains
    ["logger.ts"], and when it has no line number or line 0: the location
    then ends in [":-1"]. *)
Theorem caller_line_fallback (host : Host) (f0 f1 callSite : CallSite)
        (skipped rest : list CallSite) (file : string) :
  Forall (fun callSite =>
            getFileName callSite = None
            \/ getFileName callSite = Some ""
            \/ getFileName callSite = Some (__filename host))
         skipped ->
  getFileName callSite = Some file ->
  file <> "" ->
  file <> __filename host ->
  JS.includes "logger.ts" file = true
  \/ getLineNumber callSite = None
  \/ getLineNumber callSite = Some 0 ->
  resolve_caller host (Some (f0 :: f1 :: skipped ++ callSite :: rest))
  = {| fileName :=
         JS.or_else (Some (relative host (cwd host) file)) "unknown"
         ++ ":-1";
       method := JS.or_else (getFunctionName callSite) "anonymous" |}.
Proof.
  intros Hskip Hfile Hne Hext Hcase.
  unfold resolve_caller.
  change (drop 2 (f0 :: f1 :: skipped ++ callSite :: rest)%list)
    with (skipped ++ callSite :: rest)%list.
  assert (Hscan : scan_frames host (skipped ++ callSite :: rest)
                  = scan_frames host (callSite :: rest)).
  { induction Hskip as [|cs more Hcs _ IH]; [reflexivity|].
    cbn [app scan_frames].
    destruct Hcs as [-> | [-> | ->]]; cbn [JS.truthy JS.template andb];
      try exact IH.
    rewrite String.eqb_refl. cbn [negb]. rewrite andb_false_r. exact IH. }
  rewrite Hscan.
  cbn [scan_frames]. rewrite Hfile. cbn [JS.truthy JS.template].
  destruct (String.eqb_spec file ""); [contradiction|].
  destruct (String.eqb_spec file (__filename host)); [contradiction|].
  cbn [negb andb].
  assert (Hline : JS.truthy_number
                    (if negb (JS.includes "logger.ts" file)
                     then getLineNumber callSite else None) = false).
  { destruct Hcase as [-> | [-> | ->]]; [reflexivity| |];
      destruct (JS.includes "logger.ts" file); reflexivity. }
  rewrite Hline. f_equal.
  destruct (getFunctionName callSite) as [name|]; [|reflexivity].
  unfold JS.or_else. cbn [JS.truthy JS.template].
  destruct (String.eqb name "") eqn:Hname; cbn [negb]; [reflexivity|].
  now rewrite Hname.
Qed.

Lemma caller_line_fallback_witness :
  resolve_caller Demo.host
    (Some [Demo.internal "__getCallerInfo"; Demo.internal "__log";
           Demo.internal "info";
           {| getFileName := Some "/app/src/logger.ts";
              getFunctionName := None; getLineNumber := Some 40 |};
           {| getFileName := Some "/app/src/main.js";
              getFunctionName := Some "run"; getLineNumber := Some 12 |}])
  = {| fileName := "src/logger.ts:-1"; method := "anonymous" |}.
Proof.
  refine (caller_line_fallback Demo.host (Demo.internal "__getCallerInfo")
            (Demo.internal "__log")
            {| getFileName := Some "/app/src/logger.ts";
               getFunctionName := None; getLineNumber := Some 40 |}
            [Demo.internal "info"]
            [{| getFileName := Some "/app/src/main.js";
                getFunctionName := Some "run"; getLineNumber := Some 12 |}]
            "/app/src/logger.ts" _ eq_refl ltac:(discriminate)
            ltac:(discriminate) (or_introl eq_refl)).
  apply List.Forall_cons; [right; right; reflexivity | apply List.Forall_nil].
Defined.

(** ** The level table *)

(** Names and ranks are in one-to-one correspondence: the lookup of a
    name gives its rank, the lookup of a rank's key gives the name back,
    distinct severities differ in both, and the ranks are 0 to 10. *)
Theorem LoggerLevels_round_trip :
  (forall l, LoggerLevels (key l) = Rank (rank l))
  /\ (forall l, LoggerLevels (JS.Number_toString (rank l)) = Name (key l))
  /\ (forall l l', rank l = rank l' -> l = l')
  /\ (forall l l', key l = key l' -> l = l')
  /\ (forall l, 0 <= rank l <= 10).
Proof.
  split; [intros l; destruct l; reflexivity|].
  split; [intros l; destruct l; reflexivity|].
  split; [intros l l'; destruct l, l'; intros H; first [reflexivity | discriminate H]|].
  split; [intros l l'; destruct l, l'; intros H; first [reflexivity | discriminate H]|].
  intros l; destruct l; cbn [rank]; lia.
Qed.

(** ** The daily file *)

Lemma to_int_normal (z : Z) :
  Z.to_int z <> Decimal.Pos Decimal.Nil /\ Z.to_int z <> Decimal.Neg Decimal.Nil.
Proof.
  assert (Hnorm : Decimal.norm (Z.to_int z) = Z.to_int z)
    by (rewrite <- DecimalZ.to_of; now rewrite DecimalZ.of_to).
  split; intros H; rewrite H in Hnorm; discriminate Hnorm.
Qed.

Lemma Number_toString_inj (a b : Z) :
  JS.Number_toString a = JS.Number_toString b -> a = b.
Proof.
  unfold JS.Number_toString. intros H.
  apply (f_equal NilZero.int_of_string) in H.
  destruct (to_int_normal a) as [Ha1 Ha2].
  destruct (to_int_normal b) as [Hb1 Hb2].
  rewrite !NilZero.isi in H by assumption.
  injection H as H. now apply DecimalZ.to_int_inj.
Qed.

Lemma unpad_pad (n : Z) :
  0 <= n <= 31 ->
  unpad (JS.padStart 2 "0"%char (JS.Number_toString n)) = n.
Proof.
  intros Hn.
  assert (Hall : forallb
                   (fun k =>
                      unpad (JS.padStart 2 "0"%char
                               (JS.Number_toString (Z.of_nat k)))
                      =? Z.of_nat k)
                   (seq 0 32) = true) by (vm_compute; reflexivity).
  rewrite forallb_forall in Hall.
  specialize (Hall (Z.to_nat n)).
  rewrite Z2Nat.id in Hall by lia.
  apply Z.eqb_eq, Hall, in_seq. lia.
Qed.

Lemma split_at_first (P : ascii -> bool) (x : ascii) (a a' r r' : string) :
  P x = false ->
  all_chars P a = true ->
  all_chars P a' = true ->
  a ++ String x r = a' ++ String x r' ->
  a = a' /\ r = r'.
Proof.
  intros Hx. revert a'.
  induction a as [|c a IH]; intros [|c' a'] Ha Ha' H.
  - injection H as H. now split.
  - rewrite append_nil_l, append_cons in H. injection H as Hc _. subst c'.
    cbn [all_chars] in Ha'. rewrite Hx in Ha'. discriminate Ha'.
  - rewrite append_nil_l, append_cons in H. injection H as Hc _. subst c.
    cbn [all_chars] in Ha. rewrite Hx in Ha. discriminate Ha.
  - rewrite !append_cons in H. injection H as Hc H. subst c'.
    cbn [all_chars] in Ha, Ha'.
    apply andb_true_iff in Ha as [_ Ha]. apply andb_true_iff in Ha' as [_ Ha'].
    destruct (IH a' Ha Ha' H) as [-> ->]. now split.
Qed.

Lemma append_cancel_l (s t u : string) : s ++ t = s ++ u -> t = u.
Proof.
  induction s as [|c s IH]; [trivial|].
  rewrite !append_cons. intros H. injection H as H. now apply IH.
Qed.

Lemma decimal_no_dot (c : ascii) : decimal_char c = true -> not_dot c = true.
Proof.
  unfold not_dot. destruct (Ascii.eqb_spec c "."%char) as [->|];
    [discriminate | reflexivity].
Qed.

Lemma daily_path_fields (dir Y M D Y' M' D' : string) :
  decimal Y -> decimal M -> decimal D ->
  decimal Y' -> decimal M' -> decimal D' ->
  dir ++ "/" ++ Y ++ "/" ++ Y ++ "-" ++ M ++ "/" ++ Y ++ "-" ++ M ++ "-"
      ++ D ++ ".log"
  = dir ++ "/" ++ Y' ++ "/" ++ Y' ++ "-" ++ M' ++ "/" ++ Y' ++ "-" ++ M'
        ++ "-" ++ D' ++ ".log" ->
  Y = Y' /\ M = M' /\ D = D'.
Proof.
  intros [HY _] [HM _] [HD _] [HY' _] [HM' _] [HD' _] H.
  apply append_cancel_l in H.
  rewrite !append_cons, !append_nil_l in H. injection H as H.
  apply (split_at_first not_slash "/"%char) in H as [<- H];
    [|reflexivity
     | exact (all_chars_weaken _ _ Y decimal_no_slash HY)
     | exact (all_chars_weaken _ _ Y' decimal_no_slash HY')].
  apply append_cancel_l in H. injection H as H.
  apply (split_at_first not_slash "/"%char) in H as [<- H];
    [|reflexivity
     | exact (all_chars_weaken _ _ M decimal_no_slash HM)
     | exact (all_chars_weaken _ _ M' decimal_no_slash HM')].
  apply append_cancel_l in H. injection H as H.
  apply append_cancel_l in H. injection H as H.
  apply (split_at_first not_dot "."%char) in H as [<- _];
    [|reflexivity
     | exact (all_chars_weaken _ _ D decimal_no_dot HD)
     | exact (all_chars_weaken _ _ D' decimal_no_dot HD')].
  repeat split.
Qed.

Lemma pad_inj (a b : Z) :
  0 <= a <= 31 -> 0 <= b <= 31 ->
  JS.padStart 2 "0"%char (JS.Number_toString a)
  = JS.padStart 2 "0"%char (JS.Number_toString b) ->
  a = b.
Proof.
  intros Ha Hb H. rewrite <- (unpad_pad a Ha), <- (unpad_pad b Hb).
  now rewrite H.
Qed.

(** Lines handed to the file sink on two different local dates go to two
    different files of a plain log directory, each to the daily file of
    its date. *)
Theorem file_sink_rotates (host : Host) (w : World) (m1 m2 : string)
        (absolute : bool) (segs : list string) :
  enableFileLogging w = true ->
  logDirectory w = plain_path absolute segs ->
  segs <> [] ->
  forallb plain_segment segs = true ->
  let d1 := clock host (clockReads w) in
  let d2 := clock host (S (clockReads w)) in
  0 <= getMonth d1 <= 11 -> 1 <= getDate d1 <= 31 ->
  0 <= getMonth d2 <= 11 -> 1 <= getDate d2 <= 31 ->
  getFullYear d1 <> getFullYear d2 \/ getMonth d1 <> getMonth d2
  \/ getDate d1 <> getDate d2 ->
  let file := fun d : Date =>
    let YYYY := JS.Number_toString (getFullYear d) in
    let MM := JS.padStart 2 "0"%char (JS.Number_toString (getMonth d + 1)) in
    let DD := JS.padStart 2 "0"%char (JS.Number_toString (getDate d)) in
    logDirectory w ++ "/" ++ YYYY ++ "/" ++ YYYY ++ "-" ++ MM ++ "/"
    ++ YYYY ++ "-" ++ MM ++ "-" ++ DD ++ ".log" in
  exists w',
    (__logToFile host m1;; __logToFile host m2) w = Returns tt w'
    /\ file d1 <> file d2
    /\ files w' !! file d1
       = Some (default "" (files w !! file d1) ++ m1 ++ JS.LF)
    /\ files w' !! file d2
       = Some (default "" (files w !! file d2) ++ m2 ++ JS.LF).
Proof.
  intros Hen Hdir Hne Hsegs d1 d2 Hm1 Hd1 Hm2 Hd2 Hdiff file.
  assert (Hfile : forall d,
             NodePath.join
               [NodePath.join
                  [logDirectory w;
                   JS.Number_toString (getFullYear d) ++ "/"
                   ++ JS.Number_toString (getFullYear d) ++ "-"
                   ++ JS.padStart 2 "0"%char
                        (JS.Number_toString (getMonth d + 1))];
                JS.Number_toString (getFullYear d) ++ "-"
                ++ JS.padStart 2 "0"%char (JS.Number_toString (getMonth d + 1))
                ++ "-" ++ JS.padStart 2 "0"%char (JS.Number_toString (getDate d))
                ++ ".log"]
             = file d).
  { intros d. unfold file. rewrite Hdir. now apply daily_file_plain. }
  assert (Hneq : file d1 <> file d2).
  { intros Heq. unfold file in Heq.
    apply daily_path_fields in Heq as (HY & HM & HD);
      try apply Number_toString_decimal;
      try apply padStart_decimal, Number_toString_decimal.
    apply Number_toString_inj in HY. apply pad_inj in HM; [|lia..].
    apply pad_inj in HD; [|lia..]. lia. }
  cbv [mbind M_bind]. rewrite __logToFile_spec, Hen. fold d1.
  rewrite (Hfile d1).
  set (w1 := set_files _ _).
  rewrite __logToFile_spec.
  assert (Hen1 : enableFileLogging w1 = true) by exact Hen.
  rewrite Hen1.
  change (clock host (clockReads w1)) with d2.
  change (logDirectory w1) with (logDirectory w).
  rewrite (Hfile d2).
  eexists. split; [reflexivity|]. split; [exact Hneq|].
  cbn [files set_files set_dirs set_clockReads]. split.
  - rewrite lookup_insert_ne by congruence. unfold w1. cbn [files set_files].
    apply lookup_insert_eq.
  - rewrite lookup_insert_eq. unfold w1. cbn [files set_files].
    now rewrite lookup_insert_ne by exact Hneq.
Qed.

Lemma file_sink_rotates_witness :
  exists w',
    (__logToFile Demo.night_host "first";; __logToFile Demo.night_host "second")
      (Demo.world None)
    = Returns tt w'
    /\ "/tmp/logs/2024/2024-03/2024-03-07.log"
       <> "/tmp/logs/2024/2024-03/2024-03-08.log"
    /\ files w' !! "/tmp/logs/2024/2024-03/2024-03-07.log"
       = Some ("first" ++ JS.LF)
    /\ files w' !! "/tmp/logs/2024/2024-03/2024-03-08.log"
       = Some ("second" ++ JS.LF).
Proof.
  refine (file_sink_rotates Demo.night_host (Demo.world None) "first" "second"
            true ["tmp"; "logs"] eq_refl eq_refl ltac:(discriminate) eq_refl
            _ _ _ _ _); cbn; lia.
Defined.

(** ** The default configuration *)

(** As the class is loaded: the minimum severity is INFO, so the methods
    of the four lower severities return without any effect; file logging
    is on; and with a plain working directory [cwd] the log directory is
    [cwd/.logs], so that a line handed to the file sink of a fresh
    process lands in [cwd/.logs/<YYYY>/<YYYY>-<MM>/<YYYY>-<MM>-<DD>.log]. *)
Theorem default_configuration (host : Host) (absolute : bool)
        (segs : list string) (message : string) :
  cwd host = plain_path absolute segs ->
  segs <> [] ->
  forallb plain_segment segs = true ->
  let today := clock host 0 in
  let YYYY := JS.Number_toString (getFullYear today) in
  let MM := JS.padStart 2 "0"%char (JS.Number_toString (getMonth today + 1)) in
  let DD := JS.padStart 2 "0"%char (JS.Number_toString (getDate today)) in
  logDirectory (initial host) = cwd host ++ "/.logs"
  /\ (forall L call this messages,
         In L [SILLY; TRACE; DEBUG; VERBOSE] ->
         shortcut host L = Some call ->
         call this messages (initial host) = Returns this (initial host))
  /\ exists w',
       __logToFile host message (initial host) = Returns tt w'
       /\ files w'
          = {[ cwd host ++ "/.logs/" ++ YYYY ++ "/" ++ YYYY ++ "-" ++ MM
               ++ "/" ++ YYYY ++ "-" ++ MM ++ "-" ++ DD ++ ".log"
               := message ++ JS.LF ]}.
Proof.
  intros Hcwd Hne Hsegs today YYYY MM DD.
  destruct (join_plain absolute segs [".logs"]) as [Hjoin Hlit];
    try assumption; try discriminate; [reflexivity|].
  cbn [NodePath.concat_with] in Hjoin, Hlit.
  assert (Hdir : logDirectory (initial host)
                 = plain_path absolute (segs ++ [".logs"]))
    by (cbn [logDirectory initial]; now rewrite Hcwd).
  split; [rewrite Hdir, Hlit, Hcwd; reflexivity|].
  split.
  - intros L call this messages HL Hcall.
    cbn [In] in HL.
    destruct HL as [<- | [<- | [<- | [<- | []]]]];
      cbn [shortcut] in Hcall; injection Hcall as <-; reflexivity.
  - rewrite __logToFile_spec. cbn [enableFileLogging initial].
    eexists. split; [reflexivity|].
    cbn [files set_files set_dirs set_clockReads initial clockReads].
    change (logDirectory (initial host))
      with (NodePath.join [cwd host; ".logs"]).
    rewrite Hcwd, Hjoin.
    assert (Hne' : (segs ++ [".logs"])%list <> []) by (destruct segs; discriminate).
    assert (Hplain : forallb plain_segment (segs ++ [".logs"]) = true)
      by (rewrite forallb_app, Hsegs; reflexivity).
    pose proof (daily_file_plain absolute (segs ++ [".logs"])
                  (getFullYear today) (getMonth today + 1) (getDate today)
                  Hne' Hplain) as Hfile.
    cbv zeta in Hfile. fold today. rewrite Hfile.
    rewrite lookup_empty. cbn [default]. rewrite append_nil_l.
    rewrite insert_empty. f_equal.
    rewrite Hlit. fold YYYY MM DD. now rewrite !append_assoc.
Qed.

Lemma default_configuration_witness :
  logDirectory (initial Demo.host) = "/app/.logs"
  /\ (forall L call this messages,
         In L [SILLY; TRACE; DEBUG; VERBOSE] ->
         shortcut Demo.host L = Some call ->
         call this messages (initial Demo.host)
         = Returns this (initial Demo.host))
  /\ exists w',
       __logToFile Demo.host "line" (initial Demo.host) = Returns tt w'
       /\ files w'
          = {[ "/app/.logs/2024/2024-03/2024-03-07.log" := "line" ++ JS.LF ]}.
Proof.
  exact (default_configuration Demo.host true ["app"] "line"
           eq_refl ltac:(discriminate) eq_refl).
Defined.
